(** * License provider: key codec, license table and validation endpoint

    A shallow embedding of [generate_license.py] (the offline generator)
    and [server.py] (the validation service), and the properties of the
    license lifecycle proved on it.

    Conventions.
    - A Python [str] is the list of its code points ([N]); the texts that
      reach the program are sequences of Unicode scalar values, on which
      [encode("utf-8")] and the SQLite text binding are total.
    - A Python [int] is a [Z]; a nullable SQL column is an [option].
    - [int(time.time())] is an input of the operation that reads it.
    - The [licenses] table is the list of its rows in rowid order. *)

From Stdlib Require Import Ascii String.
From Stdlib Require Import List NArith ZArith Bool Lia Permutation.
Import ListNotations.

(** ** Python text *)

Module PyStr.

Definition str := list N.

(** The text of an ASCII literal of the source. *)
Definition py (s : string) : str :=
  map N_of_ascii (list_ascii_of_string s).

Definition eqb (a b : str) : bool :=
  if list_eq_dec N.eq_dec a b then true else false.

(** [str.isspace] on one character, as [str.strip()] uses it: the ASCII
    table of CPython (TAB..CR, FS..US, SPACE) and the Unicode white space
    characters outside ASCII. *)
Definition isspace (c : N) : bool :=
  ((0x09 <=? c) && (c <=? 0x0D) || (0x1C <=? c) && (c <=? 0x20)
   || (c =? 0x85) || (c =? 0xA0) || (c =? 0x1680)
   || (0x2000 <=? c) && (c <=? 0x200A)
   || (c =? 0x2028) || (c =? 0x2029) || (c =? 0x202F)
   || (c =? 0x205F) || (c =? 0x3000))%N.

Fixpoint lstrip (s : str) : str :=
  match s with
  | [] => []
  | c :: s' => if isspace c then lstrip s' else s
  end.

Definition rstrip (s : str) : str := rev (lstrip (rev s)).

(** [s.strip()]: white space removed at both ends. *)
Definition strip (s : str) : str := rstrip (lstrip s).

(** [s.upper()] on ASCII text (the only text the generator applies it to). *)
Definition upper_char (c : N) : N :=
  if ((0x61 <=? c) && (c <=? 0x7A))%N then (c - 0x20)%N else c.

Definition upper (s : str) : str := map upper_char s.

(** [sep.join(parts)]. *)
Fixpoint join (sep : str) (parts : list str) : str :=
  match parts with
  | [] => []
  | [p] => p
  | p :: ps => p ++ sep ++ join sep ps
  end.

(** The slice [s[i:j]]. *)
Definition slice (s : str) (i j : nat) : str := firstn (j - i) (skipn i s).

(** [key.encode("utf-8")], one to four bytes per code point. *)
Definition utf8_char (c : N) : list N :=
  (if c <? 0x80 then [c]
   else if c <? 0x800 then
     [N.lor 0xC0 (N.shiftr c 6); N.lor 0x80 (N.land c 0x3F)]
   else if c <? 0x10000 then
     [N.lor 0xE0 (N.shiftr c 12);
      N.lor 0x80 (N.land (N.shiftr c 6) 0x3F);
      N.lor 0x80 (N.land c 0x3F)]
   else
     [N.lor 0xF0 (N.land (N.shiftr c 18) 0x07);
      N.lor 0x80 (N.land (N.shiftr c 12) 0x3F);
      N.lor 0x80 (N.land (N.shiftr c 6) 0x3F);
      N.lor 0x80 (N.land c 0x3F)])%N.

Definition encode_utf8 (s : str) : list N := flat_map utf8_char s.

(** One hexadecimal digit, lower case, as ['%x'] prints it. *)
Definition hexdigit (d : N) : N :=
  (if d <? 10 then 0x30 + d else 0x61 + (d - 10))%N.

(** [n] hexadecimal digits of [x], most significant first. *)
Fixpoint hex_fixed (n : nat) (x : N) : str :=
  match n with
  | O => []
  | S n' => hexdigit (N.land (N.shiftr x (4 * N.of_nat n')) 0xF) :: hex_fixed n' x
  end.

End PyStr.

Import PyStr.

(** ** hashlib.sha256 *)

Module Sha256.

Definition w32 (x : N) : N := N.land x 0xFFFFFFFF.
Definition add32 (x y : N) : N := w32 (x + y).
Definition not32 (x : N) : N := N.lxor x 0xFFFFFFFF.
Definition rotr (n x : N) : N :=
  w32 (N.lor (N.shiftr x n) (N.shiftl x (32 - n))).

Definition Ch (x y z : N) : N := N.lxor (N.land x y) (N.land (not32 x) z).
Definition Maj (x y z : N) : N :=
  N.lxor (N.lxor (N.land x y) (N.land x z)) (N.land y z).
Definition bsig0 (x : N) : N := N.lxor (N.lxor (rotr 2 x) (rotr 13 x)) (rotr 22 x).
Definition bsig1 (x : N) : N := N.lxor (N.lxor (rotr 6 x) (rotr 11 x)) (rotr 25 x).
Definition ssig0 (x : N) : N := N.lxor (N.lxor (rotr 7 x) (rotr 18 x)) (N.shiftr x 3).
Definition ssig1 (x : N) : N := N.lxor (N.lxor (rotr 17 x) (rotr 19 x)) (N.shiftr x 10).

(** The first 64 primes. *)
Definition primes : list nat :=
  filter (fun n => forallb (fun d => negb (Nat.eqb (Nat.modulo n d) 0)) (seq 2 (n - 2)))
         (seq 2 310).

(** The integer [k]-th root of [x] (for [pow c] = [c ^ k]), found bit by
    bit from bit [b - 1] down. *)
Fixpoint iroot (pow : N -> N) (b : nat) (r x : N) : N :=
  match b with
  | O => r
  | S b' =>
      let c := (r + N.shiftl 1 (N.of_nat b'))%N in
      iroot pow b' (if (pow c <=? x)%N then c else r) x
  end.

(** The first 32 bits of the fractional part of a square or cube root. *)
Definition frac_sqrt (p : nat) : N :=
  w32 (iroot (fun c => c * c)%N 40 0 (N.shiftl (N.of_nat p) 64)).
Definition frac_cbrt (p : nat) : N :=
  w32 (iroot (fun c => c * c * c)%N 40 0 (N.shiftl (N.of_nat p) 96)).

(** The round constants: cube roots of the first 64 primes. *)
Definition K : list N := Eval vm_compute in map frac_cbrt primes.

(** The initial hash value: square roots of the first 8 primes. *)
Definition H0 : list N := Eval vm_compute in map frac_sqrt (firstn 8 primes).

(** Big-endian bytes of [x], [n] of them. *)
Fixpoint be_bytes (n : nat) (x : N) : list N :=
  match n with
  | O => []
  | S n' => N.land (N.shiftr x (8 * N.of_nat n')) 0xFF :: be_bytes n' x
  end.

(** The message followed by 0x80, zero bytes up to 56 modulo 64, and its
    length in bits on eight bytes. *)
Definition pad (msg : list N) : list N :=
  let len := N.of_nat (length msg) in
  let zeros := N.to_nat ((119 - len mod 64) mod 64) in
  msg ++ [0x80%N] ++ repeat 0%N zeros ++ be_bytes 8 (8 * len).

Fixpoint be_words (fuel : nat) (bs : list N) : list N :=
  match fuel, bs with
  | S f, b0 :: b1 :: b2 :: b3 :: rest =>
      (N.shiftl b0 24 + N.shiftl b1 16 + N.shiftl b2 8 + b3)%N :: be_words f rest
  | _, _ => []
  end.

(** The message schedule: sixteen words of the block, extended to 64. *)
Fixpoint schedule (n : nat) (w : list N) : list N :=
  match n with
  | O => w
  | S n' =>
      let t := length w in
      let x := add32 (add32 (ssig1 (nth (t - 2) w 0%N)) (nth (t - 7) w 0%N))
                     (add32 (ssig0 (nth (t - 15) w 0%N)) (nth (t - 16) w 0%N)) in
      schedule n' (w ++ [x])
  end.

Record regs := Regs { ra : N; rb : N; rc : N; rd : N; re : N; rf : N; rg : N; rh : N }.

Definition round (s : regs) (kw : N * N) : regs :=
  let t1 := add32 (add32 (add32 (rh s) (bsig1 (re s))) (Ch (re s) (rf s) (rg s)))
                  (add32 (fst kw) (snd kw)) in
  let t2 := add32 (bsig0 (ra s)) (Maj (ra s) (rb s) (rc s)) in
  Regs (add32 t1 t2) (ra s) (rb s) (rc s) (add32 (rd s) t1) (re s) (rf s) (rg s).

Definition regs_of (h : list N) : regs :=
  Regs (nth 0 h 0%N) (nth 1 h 0%N) (nth 2 h 0%N) (nth 3 h 0%N)
       (nth 4 h 0%N) (nth 5 h 0%N) (nth 6 h 0%N) (nth 7 h 0%N).

Definition compress (h : list N) (block : list N) : list N :=
  let w := schedule 48 (be_words 16 block) in
  let s := fold_left round (combine K w) (regs_of h) in
  map (fun p => add32 (fst p) (snd p))
      (combine h [ra s; rb s; rc s; rd s; re s; rf s; rg s; rh s]).

Fixpoint blocks (fuel : nat) (h : list N) (bs : list N) : list N :=
  match fuel with
  | O => h
  | S f =>
      match bs with
      | [] => h
      | _ => blocks f (compress h (firstn 64 bs)) (skipn 64 bs)
      end
  end.

Definition digest (msg : list N) : list N :=
  let p := pad msg in blocks (length p) H0 p.

(** [hashlib.sha256(msg).hexdigest()]. *)
Definition hexdigest (msg : list N) : str :=
  flat_map (hex_fixed 8) (digest msg).

End Sha256.

(** ** The helper shared by the generator and the server *)

(** [hash_key]: the SHA-256 hex digest of the UTF-8 bytes of the key. *)
Definition hash_key (key : str) : str :=
  Sha256.hexdigest (encode_utf8 key).

Arguments hash_key : simpl never.

(** ** The [licenses] table *)

Module Db.

(** One row of [licenses].  [activated_at], [activation_id], [revoked] and
    [metadata] are nullable columns. *)
Record Row := mkRow {
  id : Z;
  key_hash : str;
  created_at : Z;
  expires_at : Z;
  activated_at : option Z;
  activation_id : option str;
  revoked : option Z;
  metadata : option str
}.

Definition table := list Row.

Definition set_activation (now : Z) (install_id : str) (r : Row) : Row :=
  mkRow (id r) (key_hash r) (created_at r) (expires_at r)
        (Some now) (Some install_id) (revoked r) (metadata r).

(** [SELECT * FROM licenses WHERE key_hash=?] followed by [fetchone()]. *)
Definition select_by_hash (k_hash : str) (t : table) : option Row :=
  find (fun r => eqb (key_hash r) k_hash) t.

(** [UPDATE licenses SET activated_at=?, activation_id=? WHERE key_hash=?]. *)
Definition update_activation (now : Z) (install_id k_hash : str) (t : table) : table :=
  map (fun r => if eqb (key_hash r) k_hash then set_activation now install_id r else r) t.

(** The conflict clause of an [INSERT]. *)
Inductive conflict := OrAbort | OrIgnore.

Inductive exn := IntegrityError | RuntimeError (msg : string).

Inductive result (A : Type) := Ok (a : A) | Raise (e : exn).
Arguments Ok {A} a.
Arguments Raise {A} e.

(** The rowid of the next row: above every rowid of the table.  (SQLite's
    [AUTOINCREMENT] counter also advances on an insert that is ignored, so
    the real rowid can be larger; nothing below depends on its value.) *)
Definition next_id (t : table) : Z := (1 + fold_right Z.max 0 (map id t))%Z.

(** [INSERT ... INTO licenses (key_hash, created_at, expires_at, metadata)]:
    [key_hash] is [UNIQUE]; the columns left out are [NULL], [revoked]
    takes its default 0. *)
Definition insert_license (c : conflict) (k_hash : str) (created expires : Z)
    (meta : option str) (t : table) : result table :=
  if existsb (fun r => eqb (key_hash r) k_hash) t then
    match c with
    | OrAbort => Raise IntegrityError
    | OrIgnore => Ok t
    end
  else Ok (t ++ [mkRow (next_id t) k_hash created expires None None (Some 0%Z) meta]).

(** Programs over the table: each node is one SQL statement, run
    atomically by SQLite; what lies between two statements is pure. *)
Inductive Prog (A : Type) : Type :=
| Ret (a : A)
| Select (k_hash : str) (k : option Row -> Prog A)
| Update (now : Z) (install_id k_hash : str) (k : Prog A).
Arguments Ret {A} a.
Arguments Select {A} k_hash k.
Arguments Update {A} now install_id k_hash k.

Fixpoint bind {A B : Type} (p : Prog A) (f : A -> Prog B) : Prog B :=
  match p with
  | Ret a => f a
  | Select h k => Select h (fun r => bind (k r) f)
  | Update now i h k => Update now i h (bind k f)
  end.

(** A program run alone, from its first statement to its result. *)
Fixpoint run {A : Type} (p : Prog A) (t : table) : A * table :=
  match p with
  | Ret a => (a, t)
  | Select h k => run (k (select_by_hash h t)) t
  | Update now i h k => run k (update_activation now i h t)
  end.

(** One statement of a program. *)
Definition step {A : Type} (p : Prog A) (t : table) : Prog A * table :=
  match p with
  | Ret a => (Ret a, t)
  | Select h k => (k (select_by_hash h t), t)
  | Update now i h k => (k, update_activation now i h t)
  end.

(** Several requests in flight: the scheduler names, at each turn, the
    request whose next statement runs. *)
Fixpoint set_nth {A : Type} (n : nat) (x : A) (l : list A) : list A :=
  match l, n with
  | [], _ => []
  | _ :: l', O => x :: l'
  | y :: l', S n' => y :: set_nth n' x l'
  end.

Definition step_pool {A : Type} (i : nat) (ps : list (Prog A)) (t : table)
  : list (Prog A) * table :=
  match nth_error ps i with
  | Some p => let (p', t') := step p t in (set_nth i p' ps, t')
  | None => (ps, t)
  end.

Fixpoint run_schedule {A : Type} (sched : list nat) (ps : list (Prog A)) (t : table)
  : list (Prog A) * table :=
  match sched with
  | [] => (ps, t)
  | i :: sched' => let (ps', t') := step_pool i ps t in run_schedule sched' ps' t'
  end.

Definition finished {A : Type} (p : Prog A) : option A :=
  match p with
  | Ret a => Some a
  | _ => None
  end.

End Db.

Import Db.

Notation "x <- p ;; q" := (bind p (fun x => q))
  (at level 61, p at next level, right associativity).

(** Python truth value of an [int]. *)
Definition truthy (z : Z) : bool := negb (z =? 0)%Z.

(** Python truth value of a nullable [int] column. *)
Definition truthy_opt (z : option Z) : bool :=
  match z with
  | Some v => truthy v
  | None => false
  end.

(** ** generate_license.py *)

Module Generator.

(** The naive local [datetime] of a timestamp, as seconds on the wall
    clock of a zone [utcoffset] seconds east of UTC, and back; the offset
    is the same at both conversions, and the dates stay within the range
    of [datetime].  [LocalTime] below has the same expression for a zone
    whose offset changes and for dates out of range. *)
Definition fromtimestamp (utcoffset now : Z) : Z := (now + utcoffset)%Z.
Definition timedelta_days (days : Z) : Z := (86400 * days)%Z.
Definition timestamp (utcoffset wall : Z) : Z := (wall - utcoffset)%Z.

(** [store_hash]: the insert is [INSERT OR IGNORE]. *)
Definition store_hash (utcoffset now : Z) (key_hash : str) (days_valid : Z)
    (metadata : option str) (db : table) : result table :=
  let expires := timestamp utcoffset (fromtimestamp utcoffset now + timedelta_days days_valid)%Z in
  insert_license OrIgnore key_hash now expires metadata db.

(** [save_plain_key]: one line appended to the admin key file. *)
Definition save_plain_key (plain_key : str) (keys_file : str) : str :=
  keys_file ++ strip plain_key ++ py (String "010"%char EmptyString).

(** [uuid.uuid4()] from the 16 bytes [r] of [os.urandom]: variant and
    version bits forced, the other 122 bits left as drawn. *)
Definition uuid4 (r : N) : N :=
  let i := N.ldiff r (N.shiftl 0xc000 48) in
  let i := N.lor i (N.shiftl 0x8000 48) in
  let i := N.ldiff i (N.shiftl 0xf000 64) in
  N.lor i (N.shiftl 4 76).

(** [UUID.hex]: ['%032x' % int] of a 128-bit [int]. *)
Definition uuid_hex (u : N) : str := hex_fixed 32 u.

(** [range(start, stop, step)] for a positive step. *)
Definition range (start stop step : nat) : list nat :=
  map (fun k => start + k * step) (seq 0 ((stop - start + (step - 1)) / step)).

(** The key made of a UUID: [raw] and the four slices joined by hyphens. *)
Definition key_of_uuid (u : N) : str :=
  let raw := upper (uuid_hex u) in
  join (py "-") (map (fun i => slice raw i (i + 4)) (range 0 16 4)).

Record Admin := mkAdmin { db : table; keys_file : str }.

Section Generate.

Variable utcoffset : Z.
(** What [time.time()] and [os.urandom(16)] return at each attempt. *)
Variable time_at : nat -> Z.
Variable urandom_at : nat -> N.
Variables (metadata : option str) (days_valid : Z).

(** The body of [for attempt in range(10)]; a loop that ends without
    [return] gives [None]. *)
Fixpoint generate_loop (attempts : list nat) (w : Admin) : result (option str) * Admin :=
  match attempts with
  | [] => (Ok None, w)
  | attempt :: rest =>
      let key := key_of_uuid (uuid4 (urandom_at attempt)) in
      let key_hash := hash_key key in
      match store_hash utcoffset (time_at attempt) key_hash days_valid metadata (db w) with
      | Ok db' => (Ok (Some key), mkAdmin db' (save_plain_key key (keys_file w)))
      | Raise IntegrityError =>
          if Nat.eqb attempt 9 then
            (Raise (RuntimeError "Failed to generate unique license after 10 attempts"), w)
          else generate_loop rest w
      | Raise e => (Raise e, w)
      end
  end.

Definition generate_license (w : Admin) : result (option str) * Admin :=
  generate_loop (range 0 10 1) w.

End Generate.

Section Bulk.

Variable utcoffset : Z.
(** What [time.time()] and [os.urandom(16)] return at each attempt of each
    call of [generate_license]. *)
Variable time_at : nat -> nat -> Z.
Variable urandom_at : nat -> nat -> N.

(** The body of [for _ in range(total)]: the result of each call is
    appended to [licenses]; an exception of a call ends the loop. *)
Fixpoint bulk_loop (calls : list nat) (days_valid : Z) (metadata : option str)
    (licenses : list (option str)) (w : Admin) : result (list (option str)) * Admin :=
  match calls with
  | [] => (Ok licenses, w)
  | c :: rest =>
      match generate_license utcoffset (time_at c) (urandom_at c) metadata days_valid w with
      | (Ok key, w') => bulk_loop rest days_valid metadata (licenses ++ [key]) w'
      | (Raise e, w') => (Raise e, w')
      end
  end.

Definition bulk_generate (total days_valid : Z) (metadata : option str) (w : Admin)
  : result (list (option str)) * Admin :=
  bulk_loop (range 0 (Z.to_nat total) 1) days_valid metadata [] w.

End Bulk.

End Generator.

(** ** The expiry date in a zone whose offset changes *)

Module LocalTime.

(** [datetime.min] and [datetime.max], in seconds of the wall clock from
    1970-01-01 00:00:00. *)
Definition wall_min : Z := (-62135596800)%Z.
Definition wall_max : Z := 253402300799%Z.
Definition max_fold_seconds : Z := (24 * 3600)%Z.

Inductive date_error := OverflowError | ValueError.

Inductive res := Got (z : Z) | Err (e : date_error).

Section Zone.

(** [zone u]: the UTC offset, in seconds, that [localtime] applies at the
    instant [u]. *)
Variable zone : Z -> Z.

(** [local(u)]: the wall clock at the instant [u]; a year outside 1..9999
    is a [ValueError]. *)
Definition local (u : Z) : res :=
  let w := (u + zone u)%Z in
  if ((wall_min <=? w) && (w <=? wall_max))%Z then Got w else Err ValueError.

(** [datetime.fromtimestamp(now)], naive: the wall clock at [now], after
    the probes that look for a fold one day back.  The clock is one that
    [localtime] converts. *)
Definition fromtimestamp (now : Z) : res :=
  match local now with
  | Err e => Err e
  | Got w0 =>
      match local (now - max_fold_seconds) with
      | Err e => Err e
      | Got probe =>
          let transition := (w0 - probe - max_fold_seconds)%Z in
          if (transition <? 0)%Z then
            match local (now + transition) with
            | Err e => Err e
            | Got _ => Got w0
            end
          else Got w0
      end
  end.

(** [timedelta(days=days)], in seconds. *)
Definition timedelta (days : Z) : res :=
  if (Z.abs days <=? 999999999)%Z then Got (86400 * days)%Z else Err OverflowError.

(** [datetime + timedelta]: the date must stay within [datetime]'s range. *)
Definition add (w delta : Z) : res :=
  let t := (w + delta)%Z in
  if ((wall_min <=? t) && (t <=? wall_max))%Z then Got t else Err OverflowError.

(** [naive.timestamp()] for a [datetime] whose [fold] is 0: the instant
    [u] with [local u = t], found from the offsets at [t] and around. *)
Definition mktime (t : Z) : res :=
  match local t with
  | Err e => Err e
  | Got lt =>
      let a := (lt - t)%Z in
      let u1 := (t - a)%Z in
      match local u1 with
      | Err e => Err e
      | Got t1 =>
          let finish (b : Z) : res :=
            let u2 := (t - b)%Z in
            match local u2 with
            | Err e => Err e
            | Got t2 =>
                if (t2 =? t)%Z then Got u2
                else if (t1 =? t)%Z then Got u1
                else Got (Z.max u1 u2)
            end in
          if (t1 =? t)%Z then
            let u2 := (u1 - max_fold_seconds)%Z in
            match local u2 with
            | Err e => Err e
            | Got lt2 =>
                let b := (lt2 - u2)%Z in
                if (a =? b)%Z then Got u1 else finish b
            end
          else finish (t1 - u1)%Z
      end
  end.

(** [int((datetime.fromtimestamp(now) + timedelta(days=days_valid)).timestamp())]. *)
Definition expiry_timestamp (now days_valid : Z) : res :=
  match fromtimestamp now with
  | Err e => Err e
  | Got w0 =>
      match timedelta days_valid with
      | Err e => Err e
      | Got delta =>
          match add w0 delta with
          | Err e => Err e
          | Got t => mktime t
          end
      end
  end.

End Zone.

End LocalTime.

(** ** server.py *)

Module Server.

(** The JSON body of a request, with the two string fields of the
    interface; a field is [None] when the key is missing or [null]. *)
Record Json := mkJson { license : option str; installation_id : option str }.

(** [jsonify(...)] with its HTTP status; [expires_at] is only present in
    the bodies of accepted requests. *)
Record Response := mkResponse {
  status : Z;
  success : bool;
  message : string;
  resp_expires_at : option Z
}.

(** [x or ""]. *)
Definition or_empty (x : option str) : str :=
  match x with
  | Some s => s
  | None => []
  end.

Definition get_license_row_by_hash (k_hash : str) : Prog (option Row) :=
  Select k_hash Ret.

(** [activate_license]; [now] is its own reading of the clock. *)
Definition activate_license (now : Z) (k_hash install_id : str) : Prog unit :=
  Update now install_id k_hash (Ret tt).

(** [validate_license]: [now] is the reading of the clock before the
    expiry test, [now_act] the one [activate_license] takes. *)
Definition validate_license (now now_act : Z) (body : option Json) : Prog Response :=
  let data := match body with Some d => d | None => mkJson None None end in
  let license_key := strip (or_empty (license data)) in
  let install_id := strip (or_empty (installation_id data)) in
  match license_key with
  | [] => Ret (mkResponse 400%Z false "Missing license." None)
  | _ =>
    let k_hash := hash_key license_key in
    row <- get_license_row_by_hash k_hash ;;
    match row with
    | None => Ret (mkResponse 403%Z false "Invalid license." None)
    | Some row =>
      if truthy_opt (revoked row) then
        Ret (mkResponse 403%Z false "License revoked." None)
      else if truthy (expires_at row) && (now >? expires_at row)%Z then
        Ret (mkResponse 403%Z false "License expired." None)
      else
        match activation_id row with
        | None =>
            _ <- activate_license now_act k_hash install_id ;;
            Ret (mkResponse 200%Z true "License activated." (Some (expires_at row)))
        | Some bound =>
            if eqb bound install_id then
              Ret (mkResponse 200%Z true "Welcome back!" (Some (expires_at row)))
            else
              Ret (mkResponse 403%Z false "License already used on another device." None)
        end
    end
  end.

(** One request served alone. *)
Definition serve (now now_act : Z) (body : option Json) (t : table) : Response * table :=
  run (validate_license now now_act body) t.

(** The answer of [/list_licenses]: 401 with a message, or 200 with the
    rows ([dict(r)] of every row, all eight columns). *)
Record Listing := mkListing {
  list_status : Z;
  list_success : bool;
  list_message : option string;
  licenses : option (list Row)
}.

(** [list_licenses]: [env_secret] is [ADMIN_SECRET] of the environment
    when it is set, [header] the [X-ADMIN-SECRET] header when it is sent. *)
Definition list_licenses (env_secret header : option str) (t : table) : Listing :=
  let ADMIN_SECRET := match env_secret with Some s => s | None => py "change-me" end in
  if match header with Some h => negb (eqb h ADMIN_SECRET) | None => true end then
    mkListing 401%Z false (Some "Unauthorized"%string) None
  else
    mkListing 200%Z true None (Some t).

End Server.

(** ** read_licenses.py *)

Module Reader.

(** [column = value] in a [WHERE] clause: never true on [NULL]. *)
Definition sql_eq (column : option Z) (value : Z) : bool :=
  match column with
  | Some v => (v =? value)%Z
  | None => false
  end.

(** [column IS NOT NULL]. *)
Definition is_not_null {A : Type} (column : option A) : bool :=
  match column with
  | Some _ => true
  | None => false
  end.

(** The [WHERE] clause the script builds for [choice]; any choice other
    than 2, 3 and 4 adds none. *)
Definition where_clause (choice now_ts : Z) (r : Row) : bool :=
  if (choice =? 2)%Z then
    is_not_null (activated_at r) && sql_eq (revoked r) 0 && (expires_at r >? now_ts)%Z
  else if (choice =? 3)%Z then
    (expires_at r <=? now_ts)%Z && sql_eq (revoked r) 0
  else if (choice =? 4)%Z then
    sql_eq (revoked r) 1
  else true.

(** [ORDER BY created_at DESC]; rows created in the same second keep the
    order of the table. *)
Fixpoint insert_desc (r : Row) (l : list Row) : list Row :=
  match l with
  | [] => [r]
  | x :: l' =>
      if (created_at x <=? created_at r)%Z then r :: l else x :: insert_desc r l'
  end.

Definition order_by_created_desc (l : list Row) : list Row :=
  fold_right insert_desc [] l.

(** The rows the script fetches: [choice] is the menu choice once parsed
    (1 when the input was empty or not a number), [now_ts] the clock. *)
Definition fetch_rows (choice now_ts : Z) (t : table) : list Row :=
  order_by_created_desc (filter (where_clause choice now_ts) t).

End Reader.

Import Generator Server.
Import Reader.

(** ** Vocabulary of the validation decision *)

Definition rejected (code : Z) (reason : string) : Response :=
  mkResponse code false reason None.

Definition accepted (greeting : string) (expires : Z) : Response :=
  mkResponse 200%Z true greeting (Some expires).

(** A request whose body carries both fields. *)
Definition request (k i : str) : option Json := Some (mkJson (Some k) (Some i)).

(** The row as [INSERT] leaves it: [activate_license] writes the two
    activation columns together, so both are [NULL] until it has run. *)
Definition never_activated (r : Row) : Prop :=
  activated_at r = None /\ activation_id r = None.

(** Requests served one after the other, each with its two clock readings. *)
Fixpoint serve_all (reqs : list (Z * Z * option Json)) (t : table) : table :=
  match reqs with
  | [] => t
  | (now, now_act, body) :: rest => serve_all rest (snd (serve now now_act body t))
  end.

(** The license stored under [h] is bound to [i], with expiry [e] and not
    revoked. *)
Definition bound_to (h i : str) (e : Z) (t : table) : Prop :=
  exists r, select_by_hash h t = Some r /\ activation_id r = Some i
            /\ expires_at r = e /\ truthy_opt (revoked r) = false.

(** The [UNIQUE] constraint on [key_hash]. *)
Definition unique_hashes (t : table) : Prop := NoDup (map key_hash t).

(** A text is left-clean when [lstrip] has nothing to remove. *)
Definition left_clean (s : str) : Prop :=
  match s with
  | [] => True
  | c :: _ => isspace c = false
  end.

(** ** The shape of a generated key *)

Definition is_upper_hex (c : N) : bool :=
  ((0x30 <=? c) && (c <=? 0x39) || (0x41 <=? c) && (c <=? 0x46))%N.

Definition group_ok (g : str) : bool :=
  Nat.eqb (length g) 4 && forallb is_upper_hex g.

(** Four groups of four upper-case hexadecimal digits, hyphens between. *)
Definition well_formed_key (key : str) : bool :=
  Nat.eqb (length key) 19
  && forallb group_ok [slice key 0 4; slice key 5 9; slice key 10 14; slice key 15 19]
  && forallb (fun p => eqb (slice key p (p + 1)) (py "-")) [4; 9; 14]%nat.

(** The key made of the upper-cased hex text of a UUID. *)
Definition key_of_raw (raw : str) : str :=
  join (py "-") (map (fun i => slice raw i (i + 4)) (range 0 16 4)).

(** One upper-case hexadecimal digit, read. *)
Definition unhex_char (c : N) : option N :=
  (if (0x30 <=? c) && (c <=? 0x39) then Some (c - 0x30)
   else if (0x41 <=? c) && (c <=? 0x46) then Some (c - 0x37)
   else None)%N.

(** A text of upper-case hexadecimal digits, read as a number. *)
Fixpoint unhex_from (acc : N) (s : str) : option N :=
  match s with
  | [] => Some acc
  | c :: s' =>
      match unhex_char c with
      | Some d => unhex_from (16 * acc + d) s'
      | None => None
      end
  end.

(** The sixteen digits of a key, its hyphens left out, and their value. *)
Definition key_hex (key : str) : str :=
  slice key 0 4 ++ slice key 5 9 ++ slice key 10 14 ++ slice key 15 19.

Definition key_digits (key : str) : option N := unhex_from 0 (key_hex key).

(** Text that UTF-8 can carry: Unicode scalar values, no lone surrogate. *)
Definition scalar_text (s : str) : bool :=
  forallb (fun c => (c <? 0xD800) || ((0xDFFF <? c) && (c <? 0x110000)))%N s.

(** A field of the JSON body: missing, [null], or well-formed text. *)
Definition field_ok (x : option str) : bool :=
  match x with
  | Some s => scalar_text s
  | None => true
  end.

(** ** Sample data *)

Definition sample_key : str := py "A1B2-C3D4-E5F6-4789".

(** A row as the generator inserts it, with the [revoked] flag an
    administrator may have set since. *)
Definition issued (h : str) (created expires rev : Z) : Row :=
  mkRow 1 h created expires None None (Some rev) None.

Definition sample_table : table := [issued (hash_key sample_key) 0 2592000 0].
Definition revoked_table : table := [issued (hash_key sample_key) 0 2592000 1].
Definition unlimited_table : table := [issued (hash_key sample_key) 0 0 0].

(** The status and reason of each refusal [validate_license] can answer. *)
Definition rejection_reasons : list (Z * string) :=
  [(400%Z, "Missing license."%string); (403%Z, "Invalid license."%string);
   (403%Z, "License revoked."%string); (403%Z, "License expired."%string);
   (403%Z, "License already used on another device."%string)].

(** The admin state after one license was generated from the draw 5. *)
Definition issued_once : Admin :=
  snd (generate_license 0 (fun _ => 0%Z) (fun _ => 5%N) None 30 (mkAdmin [] [])).

(** ** Vocabulary of the invariants *)

(** The columns no request writes. *)
Definition issued_columns (r : Row) : Z * str * Z * Z * option Z * option str :=
  (id r, key_hash r, created_at r, expires_at r, revoked r, metadata r).

(** The license stored under [h] was activated at [a] for [i]. *)
Definition activated_for (h i : str) (a : Z) (t : table) : Prop :=
  exists r, select_by_hash h t = Some r /\ activation_id r = Some i
            /\ activated_at r = Some a.

(** A program that, run on tables where [h] is activated for [i], never
    writes the rows of [h]. *)
Fixpoint spares {A : Type} (h i : str) (a : Z) (p : Prog A) : Prop :=
  match p with
  | Ret _ => True
  | Select h' k => forall t, activated_for h i a t -> spares h i a (k (select_by_hash h' t))
  | Update _ _ h' k => h' <> h /\ spares h i a k
  end.

(** The requests of a pool, each with its two clock readings. *)
Definition pool_of (reqs : list (Z * Z * option Json)) : list (Prog Response) :=
  map (fun q => validate_license (fst (fst q)) (snd (fst q)) (snd q)) reqs.

(** Sorted by [created_at], latest first. *)
Fixpoint sorted_desc (l : list Row) : Prop :=
  match l with
  | [] => True
  | x :: l' => (forall y, In y l' -> (created_at y <= created_at x)%Z) /\ sorted_desc l'
  end.

(** ** The fingerprint on known inputs *)

Example hash_key_empty :
  hash_key [] = py "e3b0c44298fc1c149afbf4c8996fb92427ae41e4649b934ca495991b7852b855".
Proof. vm_compute. reflexivity. Qed.

Example hash_key_abc :
  hash_key (py "abc") = py "ba7816bf8f01cfea414140de5dae2223b00361a396177a9cb410ff61f20015ad".
Proof. vm_compute. reflexivity. Qed.

Example hash_key_sample :
  hash_key (py "A1B2-C3D4-E5F6-4789") = py "53d3d4973cdc2ab71b608b818c7fc1c891b0e8d2121ef2d9d1e39c1d29fd479c".
Proof. vm_compute. reflexivity. Qed.

Example hash_key_two_blocks :
  hash_key (py "aaaaaaaaaaaaaaaaaaaaaaaaaaaaaaaaaaaaaaaaaaaaaaaaaaaaaaaaaaaaaaaa")
  = py "ffe054fe7ae0cb6dc65c3af9b61d5209f439851db43d0ba5997337df154668eb".
Proof. vm_compute. reflexivity. Qed.

Example hash_key_non_ascii :
  hash_key [0xE9; 0x20AC; 0x1F600]%N
  = py "df9226927fd572c1ee66eec85de1bb139497614899f36e4e90474cb71f6ef9d0".
Proof. vm_compute. reflexivity. Qed.

(** ** Facts about text *)

Section TextFacts.

Lemma eqb_refl (a : str) : eqb a a = true.
Proof. unfold eqb. destruct (list_eq_dec N.eq_dec a a); congruence. Qed.

Lemma eqb_eq (a b : str) : eqb a b = true <-> a = b.
Proof. unfold eqb. destruct (list_eq_dec N.eq_dec a b); split; congruence. Qed.

Lemma eqb_neq (a b : str) : eqb a b = false <-> a <> b.
Proof. unfold eqb. destruct (list_eq_dec N.eq_dec a b); split; congruence. Qed.

Lemma lstrip_left_clean (s : str) : left_clean (lstrip s).
Proof.
  induction s as [|c s IH]; simpl; [exact I|].
  destruct (isspace c) eqn:E; [exact IH | exact E].
Qed.

Lemma lstrip_fixed (s : str) : left_clean s -> lstrip s = s.
Proof. destruct s as [|c s]; simpl; [reflexivity|]. intros ->. reflexivity. Qed.

Lemma lstrip_idem (s : str) : lstrip (lstrip s) = lstrip s.
Proof. apply lstrip_fixed, lstrip_left_clean. Qed.

Lemma lstrip_app (a b : str) :
  lstrip (a ++ b) = match lstrip a with [] => lstrip b | _ => lstrip a ++ b end.
Proof.
  induction a as [|c a IH]; simpl.
  - destruct (lstrip b); reflexivity.
  - destruct (isspace c); [exact IH | reflexivity].
Qed.

Lemma rstrip_cons (c : N) (s : str) :
  rstrip (c :: s) =
  match rstrip s with
  | [] => if isspace c then [] else [c]
  | _ => c :: rstrip s
  end.
Proof.
  unfold rstrip. simpl rev. rewrite lstrip_app.
  destruct (lstrip (rev s)) as [|d l] eqn:E.
  - simpl. destruct (isspace c); reflexivity.
  - rewrite rev_app_distr. simpl.
    destruct (rev l ++ [d]) eqn:E'; [|reflexivity].
    destruct (rev l); discriminate.
Qed.

Lemma rstrip_left_clean (s : str) : left_clean s -> left_clean (rstrip s).
Proof.
  destruct s as [|c s]; [intros _; exact I|].
  simpl. intros Hc. rewrite rstrip_cons, Hc.
  destruct (rstrip s); exact Hc.
Qed.

Lemma rstrip_idem (s : str) : rstrip (rstrip s) = rstrip s.
Proof. unfold rstrip. rewrite rev_involutive, lstrip_idem. reflexivity. Qed.

Lemma strip_idem (s : str) : strip (strip s) = strip s.
Proof.
  unfold strip.
  rewrite (lstrip_fixed (rstrip (lstrip s))).
  - apply rstrip_idem.
  - apply rstrip_left_clean, lstrip_left_clean.
Qed.

Lemma lstrip_blank (s : str) : forallb isspace s = true -> lstrip s = [].
Proof.
  induction s as [|c s IH]; simpl; [reflexivity|].
  intros H. apply andb_true_iff in H as [-> H]. exact (IH H).
Qed.

Lemma strip_blank (s : str) : forallb isspace s = true -> strip s = [].
Proof. intros H. unfold strip. rewrite (lstrip_blank _ H). reflexivity. Qed.

Lemma forallb_rev {A : Type} (f : A -> bool) (l : list A) :
  forallb f (rev l) = forallb f l.
Proof.
  induction l as [|x l IH]; [reflexivity|].
  cbn [rev forallb]. rewrite forallb_app, IH. cbn [forallb].
  rewrite andb_true_r. apply andb_comm.
Qed.

(** White space put before or after a text does not survive [strip]. *)
Lemma lstrip_pad (pre s : str) :
  forallb isspace pre = true -> lstrip (pre ++ s) = lstrip s.
Proof.
  induction pre as [|c pre IH]; [reflexivity|].
  cbn [forallb app lstrip]. intros H. apply andb_true_iff in H as [-> H]. exact (IH H).
Qed.

Lemma rstrip_pad (s post : str) :
  forallb isspace post = true -> rstrip (s ++ post) = rstrip s.
Proof.
  intros H. unfold rstrip. rewrite rev_app_distr, lstrip_pad; [reflexivity|].
  rewrite forallb_rev. exact H.
Qed.

Lemma strip_pad (pre s post : str) :
  forallb isspace pre = true -> forallb isspace post = true ->
  strip (pre ++ s ++ post) = strip s.
Proof.
  intros Hpre Hpost. unfold strip. rewrite (lstrip_pad pre _ Hpre), lstrip_app.
  destruct (lstrip s) as [|c l] eqn:E.
  - rewrite (lstrip_blank post Hpost). reflexivity.
  - apply rstrip_pad, Hpost.
Qed.

End TextFacts.

(** ** Facts about the table *)

Section TableFacts.

Lemma key_hash_set_activation now i r :
  key_hash (set_activation now i r) = key_hash r.
Proof. reflexivity. Qed.

(** What a lookup sees after an [UPDATE]. *)
Lemma select_update (h h' : str) now i (t : table) :
  select_by_hash h (update_activation now i h' t) =
  match select_by_hash h t with
  | Some r => Some (if eqb (key_hash r) h' then set_activation now i r else r)
  | None => None
  end.
Proof.
  unfold select_by_hash, update_activation.
  induction t as [|r t IH]; simpl; [reflexivity|].
  destruct (eqb (key_hash r) h') eqn:E'; simpl;
    destruct (eqb (key_hash r) h) eqn:E; try rewrite E'; auto.
Qed.

Lemma select_key_hash (h : str) (t : table) r :
  select_by_hash h t = Some r -> key_hash r = h.
Proof.
  unfold select_by_hash. intros H. apply find_some in H as [_ H].
  now apply eqb_eq.
Qed.

Lemma select_exists (h : str) (t : table) :
  existsb (fun r => eqb (key_hash r) h) t = true <-> select_by_hash h t <> None.
Proof.
  unfold select_by_hash.
  induction t as [|r t IH]; simpl; [split; congruence|].
  destruct (eqb (key_hash r) h); simpl; [split; congruence | exact IH].
Qed.

Lemma select_app_absent (h : str) (t : table) r :
  select_by_hash h t = None -> key_hash r = h ->
  select_by_hash h (t ++ [r]) = Some r.
Proof.
  unfold select_by_hash. intros Hn Hk.
  induction t as [|x t IH]; simpl in *.
  - rewrite Hk, eqb_refl. reflexivity.
  - destruct (eqb (key_hash x) h); [discriminate | auto].
Qed.


(** The table keeps its [UNIQUE] constraint under both statements that
    write it, and a stored row is the one its fingerprint looks up. *)
Lemma insert_keeps_unique c h created expires meta (t t' : table) :
  insert_license c h created expires meta t = Ok t' ->
  unique_hashes t -> unique_hashes t'.
Proof.
  unfold insert_license, unique_hashes.
  destruct (existsb _ t) eqn:E.
  - destruct c; [discriminate|]. intros [= <-]. auto.
  - intros [= <-] Hu. rewrite map_app. cbn [map key_hash].
    apply NoDup_app; [exact Hu | repeat constructor; intros [] |].
    intros x Hx [<- | []]. apply in_map_iff in Hx as (r & Hr & Hin).
    assert (Hex : existsb (fun r0 => eqb (key_hash r0) h) t = true)
      by (apply existsb_exists; exists r; split; [exact Hin | rewrite Hr; apply eqb_refl]).
    congruence.
Qed.

Lemma update_keeps_hashes now i h (t : table) :
  map key_hash (update_activation now i h t) = map key_hash t.
Proof.
  unfold update_activation. rewrite map_map. apply map_ext.
  intros r. destruct (eqb (key_hash r) h); reflexivity.
Qed.

Lemma select_member (t : table) r :
  unique_hashes t -> In r t -> select_by_hash (key_hash r) t = Some r.
Proof.
  unfold unique_hashes, select_by_hash.
  induction t as [|x t IH]; [intros _ []|].
  cbn [map find]. intros Hu [-> | Hin].
  - rewrite eqb_refl. reflexivity.
  - apply NoDup_cons_iff in Hu as [Hx Hu].
    destruct (eqb (key_hash x) (key_hash r)) eqn:E; [|auto].
    apply eqb_eq in E. exfalso. apply Hx. rewrite E. apply in_map, Hin.
Qed.

End TableFacts.

(** ** Facts about [validate_license] *)

Section ServerFacts.

Variables (now now_act : Z).

(** The decision, for a submitted key that names a stored row. *)
Lemma serve_stored (body : option Json) (k i : str) (t : table) (row : Row) :
  strip (or_empty (license (match body with Some d => d | None => mkJson None None end))) = k ->
  strip (or_empty (installation_id (match body with Some d => d | None => mkJson None None end))) = i ->
  k <> [] ->
  select_by_hash (hash_key k) t = Some row ->
  serve now now_act body t =
  if truthy_opt (revoked row) then (rejected 403 "License revoked.", t)
  else if truthy (expires_at row) && (now >? expires_at row)%Z
       then (rejected 403 "License expired.", t)
  else match activation_id row with
       | None => (accepted "License activated." (expires_at row),
                  update_activation now_act i (hash_key k) t)
       | Some b => if eqb b i
                   then (accepted "Welcome back!" (expires_at row), t)
                   else (rejected 403 "License already used on another device.", t)
       end.
Proof.
  intros Hk Hi Hne Hsel. unfold serve, validate_license.
  rewrite Hk, Hi. destruct k as [|c k']; [congruence|].
  simpl. rewrite Hsel.
  destruct (truthy_opt (revoked row)); [reflexivity|].
  destruct (truthy (expires_at row) && (now >? expires_at row)%Z); [reflexivity|].
  destruct (activation_id row) as [b|]; [|reflexivity].
  destruct (eqb b i); reflexivity.
Qed.

Lemma serve_missing (body : option Json) (t : table) :
  strip (or_empty (license (match body with Some d => d | None => mkJson None None end))) = [] ->
  serve now now_act body t = (rejected 400 "Missing license.", t).
Proof. intros H. unfold serve, validate_license. rewrite H. reflexivity. Qed.

Lemma serve_unknown (body : option Json) (k : str) (t : table) :
  strip (or_empty (license (match body with Some d => d | None => mkJson None None end))) = k ->
  k <> [] ->
  select_by_hash (hash_key k) t = None ->
  serve now now_act body t = (rejected 403 "Invalid license.", t).
Proof.
  intros Hk Hne Hsel. unfold serve, validate_license.
  rewrite Hk. destruct k; [congruence|]. simpl. rewrite Hsel. reflexivity.
Qed.

(** Either the table is left as it was, or the request activated a row
    whose [activation_id] was [NULL]. *)
Lemma serve_table (body : option Json) (t : table) :
  snd (serve now now_act body t) = t \/
  exists h i row, select_by_hash h t = Some row /\ activation_id row = None /\
                  success (fst (serve now now_act body t)) = true /\
                  snd (serve now now_act body t) = update_activation now_act i h t.
Proof.
  set (d := match body with Some d => d | None => mkJson None None end).
  destruct (strip (or_empty (license d))) as [|c k] eqn:Hk.
  - left. subst d. rewrite (serve_missing body t Hk). reflexivity.
  - destruct (select_by_hash (hash_key (c :: k)) t) as [row|] eqn:Hsel.
    + subst d. rewrite (serve_stored body _ _ t row Hk eq_refl ltac:(discriminate) Hsel).
      destruct (truthy_opt (revoked row)); [left; reflexivity|].
      destruct (truthy (expires_at row) && (now >? expires_at row)%Z); [left; reflexivity|].
      destruct (activation_id row) as [b|] eqn:Hb.
      * destruct (eqb b _); left; reflexivity.
      * right. do 3 eexists. repeat split; eauto.
    + left. subst d. rewrite (serve_unknown body _ t Hk ltac:(discriminate) Hsel). reflexivity.
Qed.

(** A bound license stays bound to the same installation, whatever
    request is served. *)
Lemma serve_keeps_binding (body : option Json) (h i : str) (e : Z) (t : table) :
  bound_to h i e t -> bound_to h i e (snd (serve now now_act body t)).
Proof.
  intros (r & Hsel & Hact & He & Hrev).
  destruct (serve_table body t) as [-> | (h' & i' & row & Hsel' & Hnone & _ & ->)].
  - exists r. auto.
  - pose proof (select_key_hash _ _ _ Hsel) as K.
    exists r. rewrite select_update, Hsel.
    destruct (eqb (key_hash r) h') eqn:E; [|auto].
    apply eqb_eq in E. assert (h = h') by congruence. subst h'. congruence.
Qed.

End ServerFacts.

Lemma serve_all_keeps_binding reqs (h i : str) (e : Z) (t : table) :
  bound_to h i e t -> bound_to h i e (serve_all reqs t).
Proof.
  revert t. induction reqs as [|[[n na] b] reqs IH]; intros t H; simpl; [exact H|].
  apply IH, serve_keeps_binding, H.
Qed.

(** A first activation binds the license. *)
Lemma update_binds (now_act : Z) (h i : str) (t : table) (row : Row) :
  select_by_hash h t = Some row -> truthy_opt (revoked row) = false ->
  bound_to h i (expires_at row) (update_activation now_act i h t).
Proof.
  intros Hsel Hrev. exists (set_activation now_act i row).
  rewrite select_update, Hsel, (select_key_hash _ _ _ Hsel), eqb_refl. auto.
Qed.

(** The bound installation is welcomed back while the license has not
    expired. *)
Lemma serve_bound (now now_act : Z) (k i : str) (io : option str) (e : Z) (t : table) :
  strip k <> [] -> strip (or_empty io) = i ->
  bound_to (hash_key (strip k)) i e t -> (now <= e)%Z ->
  serve now now_act (Some (mkJson (Some k) io)) t = (accepted "Welcome back!" e, t).
Proof.
  intros Hk Hi (r & Hsel & Hact & He & Hrev) Hle.
  rewrite (serve_stored now now_act (Some (mkJson (Some k) io)) _ _ t r eq_refl Hi Hk Hsel).
  rewrite Hrev, Hact, He, eqb_refl.
  replace (now >? e)%Z with false by (symmetry; rewrite Z.gtb_ltb; apply Z.ltb_ge; exact Hle).
  rewrite andb_false_r. reflexivity.
Qed.

(** A stored, non-revoked license whose non-zero [expires_at] is behind
    the clock is refused as expired. *)
Lemma serve_expired (now now_act : Z) (k : str) (io : option str) (t : table) (row : Row) :
  strip k <> [] ->
  select_by_hash (hash_key (strip k)) t = Some row ->
  truthy_opt (revoked row) = false ->
  expires_at row <> 0%Z -> (now > expires_at row)%Z ->
  serve now now_act (Some (mkJson (Some k) io)) t = (rejected 403 "License expired.", t).
Proof.
  intros Hk Hsel Hrev Hnz Hgt.
  rewrite (serve_stored now now_act (Some (mkJson (Some k) io)) _ _ t row eq_refl eq_refl Hk Hsel).
  rewrite Hrev. unfold truthy.
  replace (expires_at row =? 0)%Z with false by (symmetry; apply Z.eqb_neq; exact Hnz).
  replace (now >? expires_at row)%Z with true
    by (symmetry; rewrite Z.gtb_ltb; apply Z.ltb_lt; lia).
  reflexivity.
Qed.

(** A stored, non-revoked, unexpired license that no installation holds
    yet is activated for the caller. *)
Lemma serve_first (now now_act : Z) (k : str) (io : option str) (t : table) (row : Row) :
  strip k <> [] ->
  select_by_hash (hash_key (strip k)) t = Some row ->
  activation_id row = None -> truthy_opt (revoked row) = false ->
  (now <= expires_at row)%Z ->
  serve now now_act (Some (mkJson (Some k) io)) t =
  (accepted "License activated." (expires_at row),
   update_activation now_act (strip (or_empty io)) (hash_key (strip k)) t).
Proof.
  intros Hk Hsel Hact Hrev Hle.
  rewrite (serve_stored now now_act (Some (mkJson (Some k) io)) _ _ t row eq_refl eq_refl Hk Hsel).
  rewrite Hrev, Hact.
  replace (now >? expires_at row)%Z with false
    by (symmetry; rewrite Z.gtb_ltb; apply Z.ltb_ge; exact Hle).
  rewrite andb_false_r. reflexivity.
Qed.

(** A license bound to one installation refuses another one. *)
Lemma serve_other_device (now now_act : Z) (k i j : str) (io : option str) (e : Z) (t : table) :
  strip k <> [] -> strip (or_empty io) = j -> i <> j ->
  bound_to (hash_key (strip k)) i e t -> (now <= e)%Z ->
  serve now now_act (Some (mkJson (Some k) io)) t =
  (rejected 403 "License already used on another device.", t).
Proof.
  intros Hk Hj Hij (r & Hsel & Hact & He & Hrev) Hle.
  rewrite (serve_stored now now_act (Some (mkJson (Some k) io)) _ _ t r eq_refl Hj Hk Hsel).
  rewrite Hrev, Hact, He.
  replace (now >? e)%Z with false by (symmetry; rewrite Z.gtb_ltb; apply Z.ltb_ge; exact Hle).
  rewrite andb_false_r.
  replace (eqb i j) with false by (symmetry; apply eqb_neq; exact Hij).
  reflexivity.
Qed.

(** What the generator's insert leaves in a table that had no row for the
    fingerprint. *)
Lemma store_hash_creates (utcoffset now days : Z) (h : str) (meta : option str) (db : table) :
  select_by_hash h db = None ->
  exists row,
    store_hash utcoffset now h days meta db = Ok (db ++ [row]) /\
    select_by_hash h (db ++ [row]) = Some row /\
    created_at row = now /\ expires_at row = (now + 86400 * days)%Z /\
    activated_at row = None /\ activation_id row = None /\ revoked row = Some 0%Z.
Proof.
  intros Hsel. eexists. unfold store_hash, insert_license.
  destruct (existsb _ db) eqn:E.
  - apply select_exists in E. congruence.
  - split; [reflexivity|]. split; [apply select_app_absent; auto|].
    cbn [created_at expires_at activated_at activation_id revoked].
    unfold timestamp, fromtimestamp, timedelta_days.
    repeat split; try reflexivity; lia.
Qed.

(** ** The validation decision *)

(** C3. A stored license whose [revoked] flag is set is refused with
    "License revoked." whatever the clock reads, hence also when
    [expires_at] is in the past: the revocation test comes before the
    expiry test, and the table is left as it was. *)
Theorem revoked_precedes_expiry :
  forall (now now_act : Z) (k : str) (i : option str) (t : table) (row : Row),
    strip k <> [] ->
    select_by_hash (hash_key (strip k)) t = Some row ->
    truthy_opt (revoked row) = true ->
    serve now now_act (Some (mkJson (Some k) i)) t = (rejected 403 "License revoked.", t).
Proof.
  intros now now_act k i t row Hk Hsel Hrev.
  rewrite (serve_stored now now_act (Some (mkJson (Some k) i)) _ _ t row eq_refl eq_refl Hk Hsel).
  rewrite Hrev. reflexivity.
Qed.

Lemma revoked_precedes_expiry_witness :
  (3000000 > expires_at (issued (hash_key sample_key) 0 2592000 1))%Z /\
  serve 3000000 3000000 (request sample_key (py "A")) revoked_table
  = (rejected 403 "License revoked.", revoked_table).
Proof.
  split; [reflexivity|].
  apply (revoked_precedes_expiry 3000000 3000000 sample_key (Some (py "A")) revoked_table
           (issued (hash_key sample_key) 0 2592000 1)).
  - vm_compute. discriminate.
  - vm_compute. reflexivity.
  - vm_compute. reflexivity.
Defined.

(** C4. A freshly issued license (never activated, not revoked, not
    expired) is activated by the first validation, whatever the
    installation id: the answer is "License activated." with the expiry
    date and the table is the one [activate_license] leaves.  From then
    on, whatever other requests are served in between, every validation
    with the same installation id made while the license has not expired
    is answered "Welcome back!" with the expiry date, and changes nothing. *)
Theorem fresh_license_activates_then_welcomes :
  forall (now now_act : Z) (k i : str) (t : table) (row : Row),
    strip k <> [] ->
    select_by_hash (hash_key (strip k)) t = Some row ->
    never_activated row ->
    truthy_opt (revoked row) = false ->
    (now <= expires_at row)%Z ->
    serve now now_act (request k i) t =
      (accepted "License activated." (expires_at row),
       snd (run (activate_license now_act (hash_key (strip k)) (strip i)) t)) /\
    forall (between : list (Z * Z * option Json)) (now' now_act' : Z),
      (now' <= expires_at row)%Z ->
      let t' := serve_all between (snd (serve now now_act (request k i) t)) in
      serve now' now_act' (request k i) t' = (accepted "Welcome back!" (expires_at row), t').
Proof.
  intros now now_act k i t row Hk Hsel [_ Hact] Hrev Hle.
  unfold request.
  rewrite (serve_first now now_act k (Some i) t row Hk Hsel Hact Hrev Hle).
  split; [reflexivity|].
  intros between now' now_act' Hle'. cbn zeta. cbn [snd or_empty].
  apply serve_bound with (i := strip i); auto.
  apply serve_all_keeps_binding, update_binds; assumption.
Qed.

Lemma fresh_license_activates_then_welcomes_witness :
  serve 100 101 (request sample_key (py "A")) sample_table =
    (accepted "License activated." 2592000,
     snd (run (activate_license 101 (hash_key (strip sample_key)) (strip (py "A"))) sample_table)) /\
  forall (between : list (Z * Z * option Json)) (now' now_act' : Z),
    (now' <= 2592000)%Z ->
    let t' := serve_all between (snd (serve 100 101 (request sample_key (py "A")) sample_table)) in
    serve now' now_act' (request sample_key (py "A")) t' = (accepted "Welcome back!" 2592000, t').
Proof.
  apply (fresh_license_activates_then_welcomes 100 101 sample_key (py "A") sample_table
           (issued (hash_key sample_key) 0 2592000 0)).
  - vm_compute. discriminate.
  - vm_compute. reflexivity.
  - split; reflexivity.
  - vm_compute. reflexivity.
  - vm_compute. discriminate.
Defined.

(** C5. A never-activated, unexpired, non-revoked license validated first
    with one installation id and then with a different one (such as "A"
    and then "B"; the ids are compared as [validate_license] strips them)
    is accepted for the first and refused for the second with "License
    already used on another device.". *)
Theorem second_device_rejected :
  forall (now now_act now' now_act' : Z) (k a b : str) (t : table) (row : Row),
    strip k <> [] ->
    select_by_hash (hash_key (strip k)) t = Some row ->
    never_activated row ->
    truthy_opt (revoked row) = false ->
    (now <= expires_at row)%Z -> (now' <= expires_at row)%Z ->
    strip a <> strip b ->
    let (r1, t1) := serve now now_act (request k a) t in
    r1 = accepted "License activated." (expires_at row) /\
    serve now' now_act' (request k b) t1 =
      (rejected 403 "License already used on another device.", t1).
Proof.
  intros now now_act now' now_act' k a b t row Hk Hsel [_ Hact] Hrev Hle Hle' Hab.
  unfold request.
  rewrite (serve_first now now_act k (Some a) t row Hk Hsel Hact Hrev Hle).
  split; [reflexivity|].
  apply serve_other_device with (i := strip a) (j := strip b) (e := expires_at row); auto.
  apply update_binds; assumption.
Qed.

Lemma second_device_rejected_witness :
  let (r1, t1) := serve 100 101 (request sample_key (py "A")) sample_table in
  r1 = accepted "License activated." 2592000 /\
  serve 200 201 (request sample_key (py "B")) t1 =
    (rejected 403 "License already used on another device.", t1).
Proof.
  apply (second_device_rejected 100 101 200 201 sample_key (py "A") (py "B") sample_table
           (issued (hash_key sample_key) 0 2592000 0)).
  - vm_compute. discriminate.
  - vm_compute. reflexivity.
  - split; reflexivity.
  - vm_compute. reflexivity.
  - vm_compute. discriminate.
  - vm_compute. discriminate.
  - vm_compute. discriminate.
Defined.

(** C6, as stated, fails: a stored, non-revoked row whose [expires_at] is 0
    is never refused as expired, although the clock is past it; the
    expiry test is guarded by the truth value of [expires_at]. *)
Lemma expiry_skipped_when_zero :
  select_by_hash (hash_key (strip sample_key)) unlimited_table
    = Some (issued (hash_key sample_key) 0 0 0) /\
  truthy_opt (revoked (issued (hash_key sample_key) 0 0 0)) = false /\
  (1 > expires_at (issued (hash_key sample_key) 0 0 0))%Z /\
  fst (serve 1 1 (request sample_key (py "A")) unlimited_table)
    = accepted "License activated." 0 /\
  fst (serve 1 1 (request sample_key (py "A")) unlimited_table)
    <> rejected 403 "License expired.".
Proof.
  assert (E : fst (serve 1 1 (request sample_key (py "A")) unlimited_table)
              = accepted "License activated." 0) by (vm_compute; reflexivity).
  repeat split; try exact E; try (vm_compute; reflexivity).
  rewrite E. discriminate.
Qed.

(** C6, amended. A stored, non-revoked license whose [expires_at] is not 0
    is refused with "License expired." as soon as the clock is strictly
    past [expires_at]; and a license created at time 0 for 30 days is
    accepted when validated after 29 days and refused as expired when
    validated after 31 days. *)
Theorem expired_license_rejected :
  (forall (now now_act : Z) (k : str) (i : option str) (t : table) (row : Row),
      strip k <> [] ->
      select_by_hash (hash_key (strip k)) t = Some row ->
      truthy_opt (revoked row) = false ->
      expires_at row <> 0%Z ->
      (now > expires_at row)%Z ->
      serve now now_act (Some (mkJson (Some k) i)) t = (rejected 403 "License expired.", t))
  /\
  (forall (utcoffset now_act now_act' : Z) (k : str) (i i' meta : option str) (db t0 : table),
      strip k <> [] ->
      select_by_hash (hash_key (strip k)) db = None ->
      store_hash utcoffset 0 (hash_key (strip k)) 30 meta db = Ok t0 ->
      let (r1, t1) := serve (29 * 86400) now_act (Some (mkJson (Some k) i)) t0 in
      r1 = accepted "License activated." (30 * 86400) /\
      serve (31 * 86400) now_act' (Some (mkJson (Some k) i')) t0
        = (rejected 403 "License expired.", t0) /\
      serve (31 * 86400) now_act' (Some (mkJson (Some k) i')) t1
        = (rejected 403 "License expired.", t1)).
Proof.
  split.
  - intros. apply serve_expired with (row := row); assumption.
  - intros utcoffset now_act now_act' k i i' meta db t0 Hk Hnone Hstore.
    destruct (store_hash_creates utcoffset 0 30 _ meta db Hnone)
      as (row & Hs & Hsel & _ & Hexp & _ & Hact & Hrev).
    rewrite Hs in Hstore. injection Hstore as <-.
    assert (Hrev' : truthy_opt (revoked row) = false) by (rewrite Hrev; reflexivity).
    rewrite (serve_first (29 * 86400) now_act k i _ row Hk Hsel Hact Hrev' ltac:(lia)).
    split; [f_equal; lia|]. split.
    + apply serve_expired with (row := row); auto; lia.
    + destruct (update_binds now_act (hash_key (strip k)) (strip (or_empty i)) _ row Hsel Hrev')
        as (r & Hsel1 & _ & He & Hrev1).
      apply serve_expired with (row := r); auto; lia.
Qed.

Lemma expired_license_rejected_witness :
  serve 2592001 2592001 (request sample_key (py "A")) sample_table
    = (rejected 403 "License expired.", sample_table) /\
  (let (r1, t1) := serve (29 * 86400) 2505600 (request sample_key (py "A"))
                     [issued (hash_key sample_key) 0 2592000 0] in
   r1 = accepted "License activated." (30 * 86400) /\
   serve (31 * 86400) 2678400 (request sample_key (py "A"))
     [issued (hash_key sample_key) 0 2592000 0]
     = (rejected 403 "License expired.", [issued (hash_key sample_key) 0 2592000 0]) /\
   serve (31 * 86400) 2678400 (request sample_key (py "A")) t1
     = (rejected 403 "License expired.", t1)).
Proof.
  split.
  - apply (proj1 expired_license_rejected 2592001 2592001 sample_key (Some (py "A"))
             sample_table (issued (hash_key sample_key) 0 2592000 0))%Z.
    + vm_compute. discriminate.
    + vm_compute. reflexivity.
    + vm_compute. reflexivity.
    + vm_compute. discriminate.
    + vm_compute. reflexivity.
  - apply (proj2 expired_license_rejected 3600 2505600 2678400 sample_key
             (Some (py "A")) (Some (py "A")) None [] [issued (hash_key sample_key) 0 2592000 0])%Z.
    + vm_compute. discriminate.
    + vm_compute. reflexivity.
    + vm_compute. reflexivity.
Defined.

(** C7. A request that is refused (missing key, unknown key, revoked,
    expired, bound to another installation) leaves the table exactly as
    it was, and its answer carries one of the five reasons. *)
Theorem rejection_changes_nothing :
  forall (now now_act : Z) (body : option Json) (t : table),
    success (fst (serve now now_act body t)) = false ->
    snd (serve now now_act body t) = t /\
    In (status (fst (serve now now_act body t)), message (fst (serve now now_act body t)))
       rejection_reasons.
Proof.
  intros now now_act body t. unfold rejection_reasons.
  set (d := match body with Some d => d | None => mkJson None None end).
  destruct (strip (or_empty (license d))) as [|c k] eqn:Hk; subst d.
  - rewrite (serve_missing now now_act body t Hk). simpl. auto.
  - destruct (select_by_hash (hash_key (c :: k)) t) as [row|] eqn:Hsel.
    + rewrite (serve_stored now now_act body _ _ t row Hk eq_refl ltac:(discriminate) Hsel).
      destruct (truthy_opt (revoked row)); [simpl; auto|].
      destruct (truthy (expires_at row) && (now >? expires_at row)%Z); [simpl; auto 6|].
      destruct (activation_id row) as [b|]; [|simpl; discriminate].
      destruct (eqb b _); simpl; [discriminate | auto 8].
    + rewrite (serve_unknown now now_act body _ t Hk ltac:(discriminate) Hsel). simpl. auto.
Qed.

Lemma rejection_changes_nothing_witness :
  snd (serve 100 101 (request sample_key (py "A")) revoked_table) = revoked_table /\
  In (status (fst (serve 100 101 (request sample_key (py "A")) revoked_table)),
      message (fst (serve 100 101 (request sample_key (py "A")) revoked_table)))
     rejection_reasons.
Proof.
  apply (rejection_changes_nothing 100 101 (request sample_key (py "A")) revoked_table).
  vm_compute. reflexivity.
Defined.

(** C9. Validation does not see white space around its inputs.  White
    space put before and after the key and the installation id changes
    neither the answer nor the table; a request and the same request with
    both fields stripped run the same program; and a key made of white
    space only is refused with "Missing license.". *)
Theorem validation_ignores_surrounding_space :
  (forall (now now_act : Z) (k i pre post pre' post' : str) (t : table),
      forallb isspace pre = true -> forallb isspace post = true ->
      forallb isspace pre' = true -> forallb isspace post' = true ->
      serve now now_act (request (pre ++ k ++ post) (pre' ++ i ++ post')) t
        = serve now now_act (request k i) t)
  /\
  (forall (now now_act : Z) (k i : str) (t : table),
      validate_license now now_act (request k i)
        = validate_license now now_act (request (strip k) (strip i)) /\
      serve now now_act (request k i) t
        = serve now now_act (request (strip k) (strip i)) t)
  /\
  (forall (now now_act : Z) (k : str) (i : option str) (t : table),
      forallb isspace k = true ->
      serve now now_act (Some (mkJson (Some k) i)) t = (rejected 400 "Missing license.", t)).
Proof.
  split; [|split].
  - intros now now_act k i pre post pre' post' t Hpre Hpost Hpre' Hpost'.
    unfold serve, validate_license, request.
    cbn [license installation_id or_empty].
    rewrite (strip_pad pre k post Hpre Hpost), (strip_pad pre' i post' Hpre' Hpost').
    reflexivity.
  - intros now now_act k i t.
    assert (E : validate_license now now_act (request k i)
                = validate_license now now_act (request (strip k) (strip i))).
    { unfold validate_license, request.
      cbn [license installation_id or_empty].
      rewrite !strip_idem. reflexivity. }
    split; [exact E|]. unfold serve. rewrite E. reflexivity.
  - intros now now_act k i t Hk.
    apply serve_missing. cbn [license or_empty]. apply strip_blank, Hk.
Qed.

Lemma validation_ignores_surrounding_space_witness :
  serve 100 101 (request ([0x20; 0xA0]%N ++ sample_key ++ [0x09; 0x0A; 0x3000]%N)
                         ([0x0D]%N ++ py "A" ++ [0x20; 0x20]%N)) sample_table
    = serve 100 101 (request sample_key (py "A")) sample_table
  /\ serve 100 101 (request ([0x20; 0xA0]%N ++ sample_key ++ [0x09; 0x0A; 0x3000]%N)
                            ([0x0D]%N ++ py "A" ++ [0x20; 0x20]%N)) sample_table
     = (accepted "License activated." 2592000,
        [set_activation 101 (py "A") (issued (hash_key sample_key) 0 2592000 0)])
  /\ serve 100 101 (request (py "  A1B2-C3D4-E5F6-4789 ") (py " A  ")) sample_table
     = serve 100 101 (request (strip (py "  A1B2-C3D4-E5F6-4789 ")) (strip (py " A  "))) sample_table
  /\ serve 100 101 (Some (mkJson (Some [0x20; 0x09; 0x0A; 0xA0; 0x3000]%N) (Some (py "A")))) sample_table
     = (rejected 400 "Missing license.", sample_table).
Proof.
  split; [|split; [|split]].
  - apply (proj1 validation_ignores_surrounding_space 100 101 sample_key (py "A")
             [0x20; 0xA0]%N [0x09; 0x0A; 0x3000]%N [0x0D]%N [0x20; 0x20]%N sample_table)%Z;
      vm_compute; reflexivity.
  - vm_compute. reflexivity.
  - apply (proj1 (proj2 validation_ignores_surrounding_space) 100 101
             (py "  A1B2-C3D4-E5F6-4789 ") (py " A  ") sample_table)%Z.
  - apply (proj2 (proj2 validation_ignores_surrounding_space) 100 101
             [0x20; 0x09; 0x0A; 0xA0; 0x3000]%N (Some (py "A")) sample_table)%Z.
    vm_compute. reflexivity.
Defined.

(** C10. A request is never refused for want of an installation id: on a
    stored, unexpired, non-revoked, never-activated license, a request
    whose [installation_id] is missing, empty or white space is answered
    "License activated." and binds [activation_id] to the empty string;
    afterwards, whatever is served in between, every request for that
    license with such an [installation_id], made while the license has not
    expired, is answered "Welcome back!". *)
Theorem empty_installation_id_is_bound :
  forall (now now_act : Z) (k : str) (i : option str) (t : table) (row : Row),
    strip k <> [] ->
    select_by_hash (hash_key (strip k)) t = Some row ->
    never_activated row ->
    truthy_opt (revoked row) = false ->
    (now <= expires_at row)%Z ->
    strip (or_empty i) = [] ->
    let (r1, t1) := serve now now_act (Some (mkJson (Some k) i)) t in
    r1 = accepted "License activated." (expires_at row) /\
    (exists row1, select_by_hash (hash_key (strip k)) t1 = Some row1 /\
                  activation_id row1 = Some [] /\ activated_at row1 = Some now_act) /\
    forall (between : list (Z * Z * option Json)) (now' now_act' : Z) (i' : option str),
      strip (or_empty i') = [] ->
      (now' <= expires_at row)%Z ->
      serve now' now_act' (Some (mkJson (Some k) i')) (serve_all between t1)
        = (accepted "Welcome back!" (expires_at row), serve_all between t1).
Proof.
  intros now now_act k i t row Hk Hsel [_ Hact] Hrev Hle Hi.
  rewrite (serve_first now now_act k i t row Hk Hsel Hact Hrev Hle), Hi.
  split; [reflexivity|]. split.
  - exists (set_activation now_act [] row).
    rewrite select_update, Hsel, (select_key_hash _ _ _ Hsel), eqb_refl. auto.
  - intros between now' now_act' i' Hi' Hle'.
    apply serve_bound with (i := []); auto.
    apply serve_all_keeps_binding, update_binds; assumption.
Qed.

Lemma empty_installation_id_is_bound_witness :
  let (r1, t1) := serve 100 101 (Some (mkJson (Some sample_key) (Some (py "  ")))) sample_table in
  r1 = accepted "License activated." 2592000 /\
  (exists row1, select_by_hash (hash_key (strip sample_key)) t1 = Some row1 /\
                activation_id row1 = Some [] /\ activated_at row1 = Some 101%Z) /\
  forall (between : list (Z * Z * option Json)) (now' now_act' : Z) (i' : option str),
    strip (or_empty i') = [] ->
    (now' <= 2592000)%Z ->
    serve now' now_act' (Some (mkJson (Some sample_key) i')) (serve_all between t1)
      = (accepted "Welcome back!" 2592000, serve_all between t1).
Proof.
  apply (empty_installation_id_is_bound 100 101 sample_key (Some (py "  ")) sample_table
           (issued (hash_key sample_key) 0 2592000 0)).
  - vm_compute. discriminate.
  - vm_compute. reflexivity.
  - split; reflexivity.
  - vm_compute. reflexivity.
  - vm_compute. discriminate.
  - vm_compute. reflexivity.
Defined.

(** ** Facts about keys *)

Section KeyFacts.

Lemma land_15_lt (x : N) : (N.land x 0xF < 16)%N.
Proof.
  change 0xF%N with (N.ones 4). rewrite N.land_ones.
  apply N.mod_lt. discriminate.
Qed.

Lemma upper_hexdigit (d : N) : (d < 16)%N -> is_upper_hex (upper_char (hexdigit d)) = true.
Proof.
  intros H.
  assert (C : (d = 0 \/ d = 1 \/ d = 2 \/ d = 3 \/ d = 4 \/ d = 5 \/ d = 6 \/ d = 7 \/
               d = 8 \/ d = 9 \/ d = 10 \/ d = 11 \/ d = 12 \/ d = 13 \/ d = 14 \/ d = 15)%N)
    by lia.
  repeat (destruct C as [-> | C]; [reflexivity|]). subst d. reflexivity.
Qed.

Lemma hex_fixed_length (n : nat) (x : N) : length (hex_fixed n x) = n.
Proof. induction n; simpl; congruence. Qed.

Lemma upper_hex_fixed (n : nat) (x : N) :
  forallb is_upper_hex (upper (hex_fixed n x)) = true.
Proof.
  induction n as [|n IH]; [reflexivity|].
  cbn [hex_fixed upper map forallb].
  rewrite upper_hexdigit by apply land_15_lt. exact IH.
Qed.

Lemma range_0_16_4 : range 0 16 4 = [0; 4; 8; 12]%nat.
Proof. reflexivity. Qed.

Lemma range_0_10_1 : range 0 10 1 = [0; 1; 2; 3; 4; 5; 6; 7; 8; 9]%nat.
Proof. reflexivity. Qed.

Lemma py_hyphen : py "-" = [0x2D%N].
Proof. reflexivity. Qed.

(** Any 32 upper-case hex digits give a well-formed key. *)
Lemma key_of_raw_well_formed (raw : str) :
  length raw = 32%nat -> forallb is_upper_hex raw = true ->
  well_formed_key (key_of_raw raw) = true.
Proof.
  intros Hlen Hhex. unfold key_of_raw. rewrite range_0_16_4.
  do 32 (destruct raw as [|? raw]; [discriminate Hlen|]).
  destruct raw; [|discriminate Hlen]. clear Hlen.
  cbn [forallb] in Hhex.
  repeat (apply andb_true_iff in Hhex as [? Hhex]).
  unfold well_formed_key, group_ok. rewrite py_hyphen.
  cbn [map slice firstn skipn Nat.add Nat.sub join app length Nat.eqb forallb andb].
  rewrite !eqb_refl.
  repeat match goal with H : is_upper_hex _ = true |- _ => rewrite H; clear H end.
  reflexivity.
Qed.

(** The key only reads the first sixteen characters of the hex text. *)
Lemma key_of_raw_prefix (raw raw' : str) :
  firstn 16 raw = firstn 16 raw' -> key_of_raw raw = key_of_raw raw'.
Proof.
  intros H. unfold key_of_raw. rewrite range_0_16_4. cbn [map].
  assert (S : forall i, (i + 4 <= 16)%nat -> slice raw i (i + 4) = slice raw' i (i + 4)).
  { intros i Hi. unfold slice.
    replace (i + 4 - i)%nat with 4%nat by lia.
    rewrite !firstn_skipn_comm.
    replace (firstn (i + 4) raw) with (firstn (i + 4) (firstn 16 raw))
      by (rewrite firstn_firstn; f_equal; lia).
    replace (firstn (i + 4) raw') with (firstn (i + 4) (firstn 16 raw'))
      by (rewrite firstn_firstn; f_equal; lia).
    rewrite H. reflexivity. }
  rewrite (S 0%nat), (S 4%nat), (S 8%nat), (S 12%nat) by lia. reflexivity.
Qed.

Lemma shiftr_high (u s : N) :
  (64 <=? s)%N = true ->
  N.shiftr (N.shiftl (N.shiftr u 64) 64) s = N.shiftr u s.
Proof.
  intros Hs. apply N.leb_le in Hs. apply N.bits_inj. intros n.
  rewrite !N.shiftr_spec by apply N.le_0_l.
  rewrite N.shiftl_spec_high by (try apply N.le_0_l; lia).
  rewrite N.shiftr_spec by apply N.le_0_l.
  f_equal. lia.
Qed.

Lemma hex_fixed_high (u : N) :
  firstn 16 (hex_fixed 32 (N.shiftl (N.shiftr u 64) 64)) = firstn 16 (hex_fixed 32 u).
Proof.
  cbn [hex_fixed firstn].
  rewrite !shiftr_high by reflexivity. reflexivity.
Qed.

(** The thirteenth hex digit of a version 4 UUID is the version. *)
Lemma uuid4_version (r : N) : N.land (N.shiftr (uuid4 r) 76) 0xF = 4%N.
Proof.
  apply N.bits_inj. intros n.
  rewrite N.land_spec, N.shiftr_spec by apply N.le_0_l.
  unfold uuid4. rewrite N.lor_spec, N.ldiff_spec.
  destruct (N.lt_ge_cases n 4) as [Hn | Hn].
  - assert (C : (n = 0 \/ n = 1 \/ n = 2 \/ n = 3)%N) by lia.
    destruct C as [-> | [-> | [-> | ->]]]; cbn; rewrite ?andb_false_r; reflexivity.
  - replace (N.testbit 15 n) with false; [rewrite andb_false_r|].
    + symmetry. change 4%N with (2 ^ 2)%N. apply N.pow2_bits_false. lia.
    + symmetry. change 15%N with (N.ones 4). apply N.ones_spec_high. lia.
Qed.

Lemma unhex_upper_hexdigit (d : N) :
  (d < 16)%N -> unhex_char (upper_char (hexdigit d)) = Some d.
Proof.
  intros H.
  assert (C : (d = 0 \/ d = 1 \/ d = 2 \/ d = 3 \/ d = 4 \/ d = 5 \/ d = 6 \/ d = 7 \/
               d = 8 \/ d = 9 \/ d = 10 \/ d = 11 \/ d = 12 \/ d = 13 \/ d = 14 \/ d = 15)%N)
    by lia.
  repeat (destruct C as [-> | C]; [reflexivity|]). subst d. reflexivity.
Qed.

(** Reading back the upper-cased digits of [hex_fixed]. *)
Lemma unhex_hex_fixed (n : nat) (x acc : N) :
  unhex_from acc (upper (hex_fixed n x))
  = Some (acc * 2 ^ (4 * N.of_nat n) + x mod 2 ^ (4 * N.of_nat n))%N.
Proof.
  revert acc. induction n as [|n IH]; intros acc.
  - cbn [hex_fixed upper map unhex_from N.of_nat]. rewrite N.mul_0_r, N.pow_0_r, N.mod_1_r.
    f_equal. lia.
  - cbn [hex_fixed upper map unhex_from].
    rewrite unhex_upper_hexdigit by apply land_15_lt. rewrite IH. f_equal.
    change 0xF%N with (N.ones 4). rewrite N.land_ones, N.shiftr_div_pow2.
    replace (4 * N.of_nat (S n))%N with (4 * N.of_nat n + 4)%N by lia.
    rewrite N.pow_add_r. change (2 ^ 4)%N with 16%N.
    set (p := (2 ^ (4 * N.of_nat n))%N).
    assert (Hp : p <> 0%N) by (apply N.pow_nonzero; discriminate).
    rewrite (N.Div0.mod_mul_r x p 16). lia.
Qed.

Lemma hex_fixed_firstn (n m : nat) (x : N) :
  firstn n (hex_fixed (n + m) x) = hex_fixed n (N.shiftr x (4 * N.of_nat m)).
Proof.
  induction n as [|n IH]; [reflexivity|].
  cbn [Nat.add hex_fixed firstn]. rewrite IH, N.shiftr_shiftr.
  do 4 f_equal. lia.
Qed.

(** The digits of a key are the first sixteen characters of the text it
    is made of. *)
Lemma key_hex_of_raw (raw : str) :
  length raw = 32%nat -> key_hex (key_of_raw raw) = firstn 16 raw.
Proof.
  intros Hlen. unfold key_of_raw, key_hex. rewrite range_0_16_4, py_hyphen.
  do 32 (destruct raw as [|? raw]; [discriminate Hlen|]).
  reflexivity.
Qed.

End KeyFacts.

(** ** The generator *)

Section GeneratorFacts.

Variable utcoffset : Z.
Variable time_at : nat -> Z.
Variable urandom_at : nat -> N.
Variables (metadata : option str) (days_valid : Z).

(** [INSERT OR IGNORE] never raises: the row is appended, or the table is
    left as it was when the fingerprint is already there. *)
Lemma store_hash_ignores (now : Z) (h : str) (db : table) :
  store_hash utcoffset now h days_valid metadata db =
  if existsb (fun r => eqb (key_hash r) h) db then Ok db
  else Ok (db ++ [mkRow (next_id db) h now
                    (timestamp utcoffset (fromtimestamp utcoffset now + timedelta_days days_valid))
                    None None (Some 0%Z) metadata]).
Proof.
  unfold store_hash, insert_license.
  destruct (existsb _ db); reflexivity.
Qed.

(** The first attempt always returns: the key of the first draw, whatever
    the table holds. *)
Lemma generate_license_first_attempt (w : Admin) :
  exists db',
    store_hash utcoffset (time_at 0%nat) (hash_key (key_of_uuid (uuid4 (urandom_at 0%nat))))
               days_valid metadata (db w) = Ok db' /\
    generate_license utcoffset time_at urandom_at metadata days_valid w =
      (Ok (Some (key_of_uuid (uuid4 (urandom_at 0%nat)))),
       mkAdmin db' (save_plain_key (key_of_uuid (uuid4 (urandom_at 0%nat))) (keys_file w))).
Proof.
  unfold generate_license. rewrite range_0_10_1. cbn [generate_loop].
  rewrite store_hash_ignores.
  destruct (existsb _ (db w)); eexists; split; reflexivity.
Qed.

Lemma key_of_uuid_well_formed (u : N) : well_formed_key (key_of_uuid u) = true.
Proof.
  change (key_of_uuid u) with (key_of_raw (upper (uuid_hex u))).
  apply key_of_raw_well_formed.
  - unfold upper, uuid_hex. rewrite length_map. apply hex_fixed_length.
  - apply upper_hex_fixed.
Qed.

Lemma key_of_uuid_high (u : N) :
  key_of_uuid u = key_of_uuid (N.shiftl (N.shiftr u 64) 64).
Proof.
  change (key_of_raw (upper (uuid_hex u))
          = key_of_raw (upper (uuid_hex (N.shiftl (N.shiftr u 64) 64)))).
  apply key_of_raw_prefix. unfold upper, uuid_hex.
  rewrite !firstn_map, hex_fixed_high. reflexivity.
Qed.

Lemma key_version_digit (r : N) : nth 15 (key_of_uuid (uuid4 r)) 0%N = 0x34%N.
Proof.
  unfold key_of_uuid, uuid_hex. rewrite range_0_16_4, py_hyphen.
  cbn [hex_fixed upper map slice firstn skipn Nat.add Nat.sub join app nth].
  change (4 * N.of_nat 19)%N with 76%N.
  rewrite uuid4_version. reflexivity.
Qed.

End GeneratorFacts.

(** C8, as stated, fails: the key does not encode the 128-bit value.  Two
    draws that give different UUIDs give the same key. *)
Lemma key_forgets_low_bits :
  (0 < 2 ^ 128)%N /\ (1 < 2 ^ 128)%N /\ uuid4 0 <> uuid4 1 /\
  fst (generate_license 0 (fun _ => 0%Z) (fun _ => 0%N) None 30 (mkAdmin [] []))
  = fst (generate_license 0 (fun _ => 0%Z) (fun _ => 1%N) None 30 (mkAdmin [] [])).
Proof.
  repeat split; try reflexivity. vm_compute. discriminate.
Qed.

(** C8, amended. Every key [generate_license] returns has four groups of
    four upper-case hexadecimal digits separated by hyphens; its sixteen
    digits are the sixteen leading characters of the upper-cased hex text
    of the version 4 UUID drawn, so that, read as a number, they are bits
    64 to 127 of the 128-bit value (the low 64 bits are not in the key);
    the thirteenth digit is the version digit 4. *)
Theorem generated_key_format :
  forall (utcoffset : Z) (time_at : nat -> Z) (urandom_at : nat -> N)
         (metadata : option str) (days_valid : Z) (w w' : Admin) (key : str),
    generate_license utcoffset time_at urandom_at metadata days_valid w = (Ok (Some key), w') ->
    well_formed_key key = true /\
    key_hex key = firstn 16 (upper (uuid_hex (uuid4 (urandom_at 0%nat)))) /\
    key_digits key = Some (N.shiftr (uuid4 (urandom_at 0%nat)) 64 mod 2 ^ 64)%N /\
    nth 15 key 0%N = 0x34%N.
Proof.
  intros utcoffset time_at urandom_at metadata days_valid w w' key H.
  destruct (generate_license_first_attempt utcoffset time_at urandom_at metadata days_valid w)
    as (db' & _ & E).
  rewrite E in H. injection H as <- _.
  set (u := uuid4 (urandom_at 0%nat)).
  assert (Hx : key_hex (key_of_uuid u) = firstn 16 (upper (uuid_hex u))).
  { change (key_of_uuid u) with (key_of_raw (upper (uuid_hex u))).
    apply key_hex_of_raw. unfold upper, uuid_hex. rewrite length_map. apply hex_fixed_length. }
  split; [apply key_of_uuid_well_formed|]. split; [exact Hx|].
  split; [|apply key_version_digit].
  unfold key_digits. rewrite Hx. unfold upper, uuid_hex.
  rewrite firstn_map. change 32%nat with (16 + 16)%nat. rewrite hex_fixed_firstn.
  change (map upper_char (hex_fixed 16 (N.shiftr u (4 * N.of_nat 16))))
    with (upper (hex_fixed 16 (N.shiftr u 64))).
  rewrite unhex_hex_fixed. f_equal.
Qed.

Lemma generated_key_format_witness :
  well_formed_key (py "0123-4567-89AB-4DEF") = true /\
  key_hex (py "0123-4567-89AB-4DEF")
    = firstn 16 (upper (uuid_hex (uuid4 0x0123456789abcdef0123456789abcdef%N))) /\
  key_digits (py "0123-4567-89AB-4DEF")
    = Some (N.shiftr (uuid4 0x0123456789abcdef0123456789abcdef%N) 64 mod 2 ^ 64)%N /\
  nth 15 (py "0123-4567-89AB-4DEF") 0%N = 0x34%N.
Proof.
  apply (generated_key_format 0 (fun _ => 0%Z) (fun _ => 0x0123456789abcdef0123456789abcdef%N)
           None 30 (mkAdmin [] [])
           (snd (generate_license 0 (fun _ => 0%Z)
                   (fun _ => 0x0123456789abcdef0123456789abcdef%N) None 30 (mkAdmin [] [])))
           (py "0123-4567-89AB-4DEF")).
  vm_compute. reflexivity.
Defined.

(** C2. A key whose fingerprint is already in the table is not reported:
    [store_hash] returns normally, the table is left as it was (the old
    row is not overwritten), and [generate_license] returns the colliding
    key on its first attempt, without drawing again and without error. *)
Theorem duplicate_fingerprint_goes_unreported :
  forall (utcoffset : Z) (time_at : nat -> Z) (urandom_at : nat -> N)
         (metadata : option str) (days_valid : Z) (w : Admin),
    select_by_hash (hash_key (key_of_uuid (uuid4 (urandom_at 0%nat)))) (db w) <> None ->
    store_hash utcoffset (time_at 0%nat) (hash_key (key_of_uuid (uuid4 (urandom_at 0%nat))))
               days_valid metadata (db w) = Ok (db w) /\
    generate_license utcoffset time_at urandom_at metadata days_valid w =
      (Ok (Some (key_of_uuid (uuid4 (urandom_at 0%nat)))),
       mkAdmin (db w) (save_plain_key (key_of_uuid (uuid4 (urandom_at 0%nat))) (keys_file w))).
Proof.
  intros utcoffset time_at urandom_at metadata days_valid w H.
  apply select_exists in H.
  destruct (generate_license_first_attempt utcoffset time_at urandom_at metadata days_valid w)
    as (db' & Hs & E).
  rewrite store_hash_ignores, H in Hs. injection Hs as <-.
  split; [|exact E]. rewrite store_hash_ignores, H. reflexivity.
Qed.

Lemma duplicate_fingerprint_goes_unreported_witness :
  store_hash 0 86400 (hash_key (key_of_uuid (uuid4 5))) 30 None (db issued_once)
    = Ok (db issued_once) /\
  generate_license 0 (fun _ => 86400%Z) (fun n => (5 + N.of_nat n)%N) None 30 issued_once
    = (Ok (Some (key_of_uuid (uuid4 5))),
       mkAdmin (db issued_once) (save_plain_key (key_of_uuid (uuid4 5)) (keys_file issued_once))).
Proof.
  apply (duplicate_fingerprint_goes_unreported 0 (fun _ => 86400%Z)
           (fun n => (5 + N.of_nat n)%N) None 30 issued_once).
  vm_compute. discriminate.
Defined.

(** ** Requests in flight together *)

(** Running a program alone is running its statements one by one. *)
Lemma run_step {A : Type} (p : Prog A) (t : table) :
  run p t = run (fst (step p t)) (snd (step p t)).
Proof. destruct p; reflexivity. Qed.

(** A request in flight alone finishes, with the answer and the table of
    [run]. *)
Lemma run_schedule_alone {A : Type} (p : Prog A) (t : table) :
  exists n, run_schedule (repeat 0%nat n) [p] t = ([Ret (fst (run p t))], snd (run p t)).
Proof.
  revert t. induction p as [a | h k IH | now i h k IH]; intros t.
  - exists 0%nat. reflexivity.
  - destruct (IH (select_by_hash h t) t) as [n Hn]. exists (S n). exact Hn.
  - destruct (IH (update_activation now i h t)) as [n Hn]. exists (S n). exact Hn.
Qed.

(** Served one after the other, two first activations of one license
    cannot both bind: the second is refused. *)
Lemma serial_activations_exclude (now1 act1 now2 act2 : Z) (k a b : str) (t : table) (row : Row) :
  strip k <> [] ->
  select_by_hash (hash_key (strip k)) t = Some row ->
  never_activated row -> truthy_opt (revoked row) = false ->
  (now1 <= expires_at row)%Z ->
  bound_to (hash_key (strip k)) (strip a) (expires_at row)
    (serve_all [(now1, act1, request k a); (now2, act2, request k b)] t).
Proof.
  intros Hk Hsel [_ Hact] Hrev H1.
  cbn [serve_all]. apply serve_keeps_binding. unfold request.
  rewrite (serve_first now1 act1 k (Some a) t row Hk Hsel Hact Hrev H1).
  apply update_binds; assumption.
Qed.

(** C1. The binding is not set at most once when two first activations
    overlap.  Both requests read the row before either writes it
    (schedule: first request, second request, first request, second
    request): after the first [UPDATE] the license is bound to the first
    installation; the second [UPDATE] rebinds it to the second one, and
    both requests are answered "License activated.". *)
Theorem overlapping_activations_both_bind :
  forall (now1 act1 now2 act2 : Z) (k a b : str) (t : table) (row : Row),
    strip k <> [] ->
    select_by_hash (hash_key (strip k)) t = Some row ->
    never_activated row ->
    truthy_opt (revoked row) = false ->
    (now1 <= expires_at row)%Z -> (now2 <= expires_at row)%Z ->
    let pool := [validate_license now1 act1 (request k a);
                 validate_license now2 act2 (request k b)] in
    let (pool1, t1) := run_schedule [0; 1; 0]%nat pool t in
    let (pool2, t2) := run_schedule [1]%nat pool1 t1 in
    bound_to (hash_key (strip k)) (strip a) (expires_at row) t1 /\
    map finished pool2 = [Some (accepted "License activated." (expires_at row));
                          Some (accepted "License activated." (expires_at row))] /\
    bound_to (hash_key (strip k)) (strip b) (expires_at row) t2.
Proof.
  intros now1 act1 now2 act2 k a b t row Hk Hsel [_ Hact] Hrev H1 H2.
  assert (G1 : (now1 >? expires_at row)%Z = false)
    by (rewrite Z.gtb_ltb; apply Z.ltb_ge; exact H1).
  assert (G2 : (now2 >? expires_at row)%Z = false)
    by (rewrite Z.gtb_ltb; apply Z.ltb_ge; exact H2).
  unfold validate_license, request. cbn [license installation_id or_empty].
  destruct (strip k) as [|c k'] eqn:Ek; [congruence|].
  cbn [run_schedule step_pool nth_error set_nth step bind
       get_license_row_by_hash activate_license].
  rewrite Hsel. cbn [bind]. rewrite Hrev, Hact, G1, G2, !andb_false_r.
  cbn [bind run_schedule step_pool nth_error set_nth step map finished].
  split; [apply update_binds; assumption|]. split; [reflexivity|].
  destruct (update_binds act1 (hash_key (c :: k')) (strip a) t row Hsel Hrev)
    as (r1 & Hsel1 & _ & He1 & Hrev1).
  rewrite <- He1. apply update_binds; assumption.
Qed.

Lemma overlapping_activations_both_bind_witness :
  strip (py "A") <> strip (py "B") /\
  let pool := [validate_license 100 101 (request sample_key (py "A"));
               validate_license 100 102 (request sample_key (py "B"))] in
  let (pool1, t1) := run_schedule [0; 1; 0]%nat pool sample_table in
  let (pool2, t2) := run_schedule [1]%nat pool1 t1 in
  bound_to (hash_key (strip sample_key)) (strip (py "A")) 2592000 t1 /\
  map finished pool2 = [Some (accepted "License activated." 2592000);
                        Some (accepted "License activated." 2592000)] /\
  bound_to (hash_key (strip sample_key)) (strip (py "B")) 2592000 t2.
Proof.
  split; [vm_compute; discriminate|].
  apply (overlapping_activations_both_bind 100 101 100 102 sample_key (py "A") (py "B")
           sample_table (issued (hash_key sample_key) 0 2592000 0)).
  - vm_compute. discriminate.
  - vm_compute. reflexivity.
  - split; reflexivity.
  - vm_compute. reflexivity.
  - vm_compute. discriminate.
  - vm_compute. discriminate.
Defined.

(** ** More about [validate_license] *)

(** Every path of [validate_license], as a case analysis on its answer and
    the table it leaves. *)
Lemma serve_view (P : Response * table -> Prop) (now now_act : Z) (body : option Json)
    (t : table) :
  let data := match body with Some d => d | None => mkJson None None end in
  let k := strip (or_empty (license data)) in
  let i := strip (or_empty (installation_id data)) in
  (k = [] -> P (rejected 400 "Missing license.", t)) ->
  (k <> [] -> select_by_hash (hash_key k) t = None ->
   P (rejected 403 "Invalid license.", t)) ->
  (forall row, k <> [] -> select_by_hash (hash_key k) t = Some row ->
   truthy_opt (revoked row) = true ->
   P (rejected 403 "License revoked.", t)) ->
  (forall row, k <> [] -> select_by_hash (hash_key k) t = Some row ->
   truthy_opt (revoked row) = false ->
   expires_at row <> 0%Z -> (now > expires_at row)%Z ->
   P (rejected 403 "License expired.", t)) ->
  (forall row, k <> [] -> select_by_hash (hash_key k) t = Some row ->
   truthy_opt (revoked row) = false ->
   (expires_at row = 0 \/ now <= expires_at row)%Z ->
   activation_id row = None ->
   P (accepted "License activated." (expires_at row),
      update_activation now_act i (hash_key k) t)) ->
  (forall row, k <> [] -> select_by_hash (hash_key k) t = Some row ->
   truthy_opt (revoked row) = false ->
   (expires_at row = 0 \/ now <= expires_at row)%Z ->
   activation_id row = Some i ->
   P (accepted "Welcome back!" (expires_at row), t)) ->
  (forall row b, k <> [] -> select_by_hash (hash_key k) t = Some row ->
   truthy_opt (revoked row) = false ->
   (expires_at row = 0 \/ now <= expires_at row)%Z ->
   activation_id row = Some b -> b <> i ->
   P (rejected 403 "License already used on another device.", t)) ->
  P (serve now now_act body t).
Proof.
  intros data k i Hmiss Hunk Hrev Hexp Hact Hback Hused.
  destruct k as [|c k'] eqn:Ek.
  - rewrite (serve_missing now now_act body t Ek). apply Hmiss. reflexivity.
  - assert (Hne : c :: k' <> []) by discriminate.
    destruct (select_by_hash (hash_key (c :: k')) t) as [row|] eqn:Hsel.
    + rewrite (serve_stored now now_act body _ _ t row Ek eq_refl Hne Hsel).
      fold data. fold i.
      destruct (truthy_opt (revoked row)) eqn:R; [apply (Hrev row); auto|].
      unfold truthy.
      destruct (expires_at row =? 0)%Z eqn:Z0; cbn [negb andb].
      * apply Z.eqb_eq in Z0.
        destruct (activation_id row) as [b|] eqn:A.
        -- destruct (eqb b i) eqn:B.
           ++ apply eqb_eq in B. subst b. apply (Hback row); auto.
           ++ apply eqb_neq in B. apply (Hused row b); auto.
        -- apply (Hact row); auto.
      * apply Z.eqb_neq in Z0.
        destruct (now >? expires_at row)%Z eqn:G.
        -- apply (Hexp row); auto. apply Z.gtb_lt in G. lia.
        -- assert (now <= expires_at row)%Z
             by (rewrite Z.gtb_ltb in G; apply Z.ltb_ge in G; exact G).
           destruct (activation_id row) as [b|] eqn:A.
           ++ destruct (eqb b i) eqn:B.
              ** apply eqb_eq in B. subst b. apply (Hback row); auto.
              ** apply eqb_neq in B. apply (Hused row b); auto.
           ++ apply (Hact row); auto.
    + rewrite (serve_unknown now now_act body _ t Ek Hne Hsel). apply Hunk; auto.
Qed.

Lemma update_keeps_issued now i h (t : table) :
  map issued_columns (update_activation now i h t) = map issued_columns t.
Proof.
  unfold update_activation. rewrite map_map. apply map_ext.
  intros r. destruct (eqb (key_hash r) h); reflexivity.
Qed.

Lemma step_keeps_issued {A : Type} (p : Prog A) (t : table) :
  map issued_columns (snd (step p t)) = map issued_columns t.
Proof. destruct p; cbn [step snd]; auto using update_keeps_issued. Qed.

Lemma run_keeps_issued {A : Type} (p : Prog A) (t : table) :
  map issued_columns (snd (run p t)) = map issued_columns t.
Proof.
  revert t. induction p as [a | h k IH | now i h k IH]; intros t; cbn [run].
  - reflexivity.
  - apply IH.
  - rewrite IH. apply update_keeps_issued.
Qed.

Lemma schedule_keeps_issued {A : Type} (sched : list nat) (ps : list (Prog A)) (t : table) :
  map issued_columns (snd (run_schedule sched ps t)) = map issued_columns t.
Proof.
  revert ps t. induction sched as [|n sched IH]; intros ps t; [reflexivity|].
  cbn [run_schedule]. unfold step_pool.
  destruct (nth_error ps n) as [p|]; [|apply IH].
  pose proof (step_keeps_issued p t) as Hs. destruct (step p t) as [p' t'].
  rewrite IH. exact Hs.
Qed.

(** X2. A request for one key leaves the licenses of all other
    fingerprints exactly as they were. *)
Theorem other_licenses_untouched :
  forall (now now_act : Z) (k : str) (i : option str) (t : table) (h : str),
    h <> hash_key (strip k) ->
    select_by_hash h (snd (serve now now_act (Some (mkJson (Some k) i)) t))
      = select_by_hash h t.
Proof.
  intros now now_act k i t h Hh.
  apply (serve_view (fun o => select_by_hash h (snd o) = select_by_hash h t));
    cbn [snd license installation_id or_empty]; try reflexivity.
  intros row _ _ _ _ _. rewrite select_update.
  destruct (select_by_hash h t) as [r|] eqn:E; [|reflexivity].
  replace (eqb (key_hash r) (hash_key (strip k))) with false; [reflexivity|].
  symmetry. apply eqb_neq. rewrite (select_key_hash _ _ _ E). exact Hh.
Qed.

Lemma other_licenses_untouched_witness :
  select_by_hash (hash_key (py "other"))
    (snd (serve 100 101 (Some (mkJson (Some sample_key) (Some (py "A"))))
            (sample_table ++ [issued (hash_key (py "other")) 5 600 0])))
  = select_by_hash (hash_key (py "other"))
      (sample_table ++ [issued (hash_key (py "other")) 5 600 0]).
Proof.
  apply (other_licenses_untouched 100 101 sample_key (Some (py "A"))
           (sample_table ++ [issued (hash_key (py "other")) 5 600 0]) (hash_key (py "other"))).
  vm_compute. discriminate.
Defined.

Lemma update_spares_other now' i' h' (h i : str) (a : Z) (t : table) :
  h' <> h -> activated_for h i a t ->
  activated_for h i a (update_activation now' i' h' t).
Proof.
  intros Hne (r & Hsel & Hi & Ha). exists r.
  rewrite select_update, Hsel.
  replace (eqb (key_hash r) h') with false; [auto|].
  symmetry. apply eqb_neq. rewrite (select_key_hash _ _ _ Hsel). congruence.
Qed.

(** A request never writes a license that is already activated. *)
Lemma validate_spares now now_act body (h i : str) (a : Z) :
  spares h i a (validate_license now now_act body).
Proof.
  unfold validate_license.
  destruct (strip (or_empty (license _))) as [|c k]; [exact I|].
  cbn [bind get_license_row_by_hash spares]. intros t (r & Hsel & Hi & Ha).
  destruct (select_by_hash (hash_key (c :: k)) t) as [row|] eqn:E; [|exact I].
  destruct (truthy_opt (revoked row)); [exact I|].
  destruct (truthy (expires_at row) && (now >? expires_at row)%Z); [exact I|].
  destruct (activation_id row) as [b|] eqn:A.
  - destruct (eqb b _); exact I.
  - cbn [bind activate_license spares]. split; [|exact I].
    intros Heq. rewrite Heq in E. congruence.
Qed.

Lemma run_spares {A : Type} (p : Prog A) (h i : str) (a : Z) (t : table) :
  spares h i a p -> activated_for h i a t -> activated_for h i a (snd (run p t)).
Proof.
  revert t. induction p as [x | h' k IH | now' i' h' k IH]; intros t Hp Ht; cbn [run].
  - exact Ht.
  - apply IH; [apply Hp|]; exact Ht.
  - destruct Hp as [Hne Hk]. apply IH; [exact Hk|].
    apply update_spares_other; assumption.
Qed.

Lemma set_nth_Forall {A : Type} (P : A -> Prop) (n : nat) (x : A) (l : list A) :
  P x -> Forall P l -> Forall P (set_nth n x l).
Proof.
  intros Hx Hl. revert n. induction Hl as [|y l Hy Hl IH]; intros n.
  - destruct n; constructor.
  - destruct n; cbn [set_nth]; constructor; auto.
Qed.

Lemma schedule_spares {A : Type} (sched : list nat) (ps : list (Prog A))
    (h i : str) (a : Z) (t : table) :
  Forall (spares h i a) ps -> activated_for h i a t ->
  activated_for h i a (snd (run_schedule sched ps t)).
Proof.
  revert ps t. induction sched as [|n sched IH]; intros ps t Hps Ht; [exact Ht|].
  cbn [run_schedule]. unfold step_pool.
  destruct (nth_error ps n) as [p|] eqn:E; [|apply IH; assumption].
  assert (Hp : spares h i a p).
  { apply nth_error_In in E. rewrite Forall_forall in Hps. apply Hps, E. }
  destruct p as [x | h' k | now' i' h' k]; cbn [step].
  - apply IH; [apply set_nth_Forall|]; assumption.
  - apply IH; [apply set_nth_Forall; [apply Hp|]|]; assumption.
  - destruct Hp as [Hne Hk].
    apply IH; [apply set_nth_Forall; assumption|].
    apply update_spares_other; assumption.
Qed.

(** X3. Once a license is activated, its installation id and activation
    time never change again, whatever requests follow: served one after
    the other, or any number of them interleaved under any schedule.  The
    rebinding of overlapping requests only concerns a license that was
    not yet activated when they started. *)
Theorem activated_license_stays_bound :
  forall (reqs : list (Z * Z * option Json)) (sched : list nat)
         (h i : str) (a : Z) (t : table),
    activated_for h i a t ->
    activated_for h i a (serve_all reqs t) /\
    activated_for h i a (snd (run_schedule sched (pool_of reqs) t)).
Proof.
  intros reqs sched h i a t Ht. split.
  - revert t Ht. induction reqs as [|[[n na] b] reqs IH]; intros t Ht; [exact Ht|].
    cbn [serve_all]. apply IH. apply run_spares; [apply validate_spares | exact Ht].
  - apply schedule_spares; [|exact Ht].
    unfold pool_of. apply Forall_forall. intros p Hp.
    apply in_map_iff in Hp as (q & <- & _). apply validate_spares.
Qed.

Lemma activated_license_stays_bound_witness :
  let t := snd (serve 100 101 (request sample_key (py "A")) sample_table) in
  let reqs := [(200, 201, request sample_key (py "B"));
               (300, 301, request sample_key (py "C"));
               (400, 401, request sample_key (py "A"))]%Z in
  activated_for (hash_key sample_key) (py "A") 101 (serve_all reqs t) /\
  activated_for (hash_key sample_key) (py "A") 101
    (snd (run_schedule [2; 0; 1; 1; 0; 2; 2]%nat (pool_of reqs) t)).
Proof.
  apply (activated_license_stays_bound
           [(200, 201, request sample_key (py "B"));
            (300, 301, request sample_key (py "C"));
            (400, 401, request sample_key (py "A"))]%Z
           [2; 0; 1; 1; 0; 2; 2]%nat (hash_key sample_key) (py "A") 101
           (snd (serve 100 101 (request sample_key (py "A")) sample_table))).
  eexists. vm_compute. repeat split.
Defined.

(** X4. What an accepted request guarantees: the submitted key, once
    stripped, is not empty and names a stored license that is not revoked
    and not past a non-zero [expires_at]; the answer is "License
    activated." or "Welcome back!" with that license's [expires_at]; and
    in the table the request leaves, the license is bound to the stripped
    installation id of the request. *)
Theorem accepted_means_entitled :
  forall (now now_act : Z) (k i : option str) (t : table),
    success (fst (serve now now_act (Some (mkJson k i)) t)) = true ->
    exists row row',
      strip (or_empty k) <> [] /\
      select_by_hash (hash_key (strip (or_empty k))) t = Some row /\
      truthy_opt (revoked row) = false /\
      (expires_at row = 0 \/ now <= expires_at row)%Z /\
      (fst (serve now now_act (Some (mkJson k i)) t)
         = accepted "License activated." (expires_at row) \/
       fst (serve now now_act (Some (mkJson k i)) t)
         = accepted "Welcome back!" (expires_at row)) /\
      select_by_hash (hash_key (strip (or_empty k)))
                     (snd (serve now now_act (Some (mkJson k i)) t)) = Some row' /\
      activation_id row' = Some (strip (or_empty i)) /\
      issued_columns row' = issued_columns row.
Proof.
  intros now now_act k i t.
  apply (serve_view (fun o =>
    success (fst o) = true ->
    exists row row',
      strip (or_empty k) <> [] /\
      select_by_hash (hash_key (strip (or_empty k))) t = Some row /\
      truthy_opt (revoked row) = false /\
      (expires_at row = 0 \/ now <= expires_at row)%Z /\
      (fst o = accepted "License activated." (expires_at row) \/
       fst o = accepted "Welcome back!" (expires_at row)) /\
      select_by_hash (hash_key (strip (or_empty k))) (snd o) = Some row' /\
      activation_id row' = Some (strip (or_empty i)) /\
      issued_columns row' = issued_columns row));
    cbn [fst snd license installation_id success rejected]; try discriminate.
  - intros row Hk Hsel Hrev Hexp Hact _.
    exists row, (set_activation now_act (strip (or_empty i)) row).
    rewrite select_update, Hsel, (select_key_hash _ _ _ Hsel), eqb_refl. auto 10.
  - intros row Hk Hsel Hrev Hexp Hact _. exists row, row. auto 10.
Qed.

Lemma accepted_means_entitled_witness :
  exists row row',
    strip (or_empty (Some sample_key)) <> [] /\
    select_by_hash (hash_key (strip (or_empty (Some sample_key)))) sample_table = Some row /\
    truthy_opt (revoked row) = false /\
    (expires_at row = 0 \/ 100 <= expires_at row)%Z /\
    (fst (serve 100 101 (Some (mkJson (Some sample_key) None)) sample_table)
       = accepted "License activated." (expires_at row) \/
     fst (serve 100 101 (Some (mkJson (Some sample_key) None)) sample_table)
       = accepted "Welcome back!" (expires_at row)) /\
    select_by_hash (hash_key (strip (or_empty (Some sample_key))))
                   (snd (serve 100 101 (Some (mkJson (Some sample_key) None)) sample_table))
      = Some row' /\
    activation_id row' = Some (strip (or_empty None)) /\
    issued_columns row' = issued_columns row.
Proof.
  apply (accepted_means_entitled 100 101 (Some sample_key) None sample_table).
  vm_compute. reflexivity.
Defined.

Lemma expiry_test_false (now e : Z) :
  (e = 0 \/ now <= e)%Z -> truthy e && (now >? e)%Z = false.
Proof.
  intros [-> | H]; [reflexivity|].
  replace (now >? e)%Z with false; [apply andb_false_r|].
  symmetry. rewrite Z.gtb_ltb. apply Z.ltb_ge. exact H.
Qed.

Lemma expiry_test_true (now e : Z) :
  e <> 0%Z -> (now > e)%Z -> truthy e && (now >? e)%Z = true.
Proof.
  intros H0 H. unfold truthy.
  replace (e =? 0)%Z with false by (symmetry; apply Z.eqb_neq; exact H0).
  replace (now >? e)%Z with true; [reflexivity|].
  symmetry. rewrite Z.gtb_ltb. apply Z.ltb_lt. lia.
Qed.

(** X5. Sending a request again is harmless: served a second time at the
    same clock reading, right after the first, it leaves the table as the
    first one left it and gets the same verdict (same [success], status
    and [expires_at]; only the greeting of an activation becomes
    "Welcome back!"). *)
Theorem repeated_request_is_harmless :
  forall (now now_act now_act' : Z) (body : option Json) (t : table),
    let (r1, t1) := serve now now_act body t in
    let (r2, t2) := serve now now_act' body t1 in
    t2 = t1 /\ success r2 = success r1 /\ status r2 = status r1 /\
    resp_expires_at r2 = resp_expires_at r1 /\
    (r2 = r1 \/ (message r1 = "License activated."%string /\
                 message r2 = "Welcome back!"%string)).
Proof.
  intros now now_act now_act' body t.
  apply (serve_view (fun o =>
    let (r1, t1) := o in
    let (r2, t2) := serve now now_act' body t1 in
    t2 = t1 /\ success r2 = success r1 /\ status r2 = status r1 /\
    resp_expires_at r2 = resp_expires_at r1 /\
    (r2 = r1 \/ (message r1 = "License activated."%string /\
                 message r2 = "Welcome back!"%string)))).
  - intros Hk. rewrite (serve_missing now now_act' body t Hk). auto 6.
  - intros Hk Hsel. rewrite (serve_unknown now now_act' body _ t eq_refl Hk Hsel). auto 6.
  - intros row Hk Hsel Hrev.
    rewrite (serve_stored now now_act' body _ _ t row eq_refl eq_refl Hk Hsel), Hrev. auto 6.
  - intros row Hk Hsel Hrev H0 Hgt.
    rewrite (serve_stored now now_act' body _ _ t row eq_refl eq_refl Hk Hsel), Hrev.
    rewrite (expiry_test_true _ _ H0 Hgt). auto 6.
  - intros row Hk Hsel Hrev Hexp Hact.
    assert (Hsel' : select_by_hash (hash_key (strip (or_empty (license
                       match body with Some d => d | None => mkJson None None end))))
                      (update_activation now_act
                         (strip (or_empty (installation_id
                            match body with Some d => d | None => mkJson None None end)))
                         (hash_key (strip (or_empty (license
                            match body with Some d => d | None => mkJson None None end)))) t)
                    = Some (set_activation now_act
                              (strip (or_empty (installation_id
                                 match body with Some d => d | None => mkJson None None end)))
                              row)).
    { rewrite select_update, Hsel, (select_key_hash _ _ _ Hsel), eqb_refl. reflexivity. }
    rewrite (serve_stored now now_act' body _ _ _ _ eq_refl eq_refl Hk Hsel').
    cbn [set_activation revoked expires_at activation_id].
    rewrite Hrev, (expiry_test_false _ _ Hexp), eqb_refl.
    cbn [accepted success status resp_expires_at message]. auto 8.
  - intros row Hk Hsel Hrev Hexp Hact.
    rewrite (serve_stored now now_act' body _ _ t row eq_refl eq_refl Hk Hsel), Hrev.
    rewrite (expiry_test_false _ _ Hexp), Hact, eqb_refl. auto 6.
  - intros row b Hk Hsel Hrev Hexp Hact Hb.
    rewrite (serve_stored now now_act' body _ _ t row eq_refl eq_refl Hk Hsel), Hrev.
    rewrite (expiry_test_false _ _ Hexp), Hact.
    replace (eqb b _) with false by (symmetry; apply eqb_neq; exact Hb). auto 6.
Qed.

(** X6. The fields of an answer agree with each other, for a request
    whose JSON body is an object whose [license] and [installation_id] are
    missing, [null] or well-formed text: [success] is true exactly when
    the status is 200 and exactly when [expires_at] is present; the status
    is 400 exactly when the stripped [license] is empty; and the status is
    200, 400 or 403. *)
Theorem answer_fields_agree :
  forall (now now_act : Z) (k i : option str) (t : table),
    field_ok k = true -> field_ok i = true ->
    let r := fst (serve now now_act (Some (mkJson k i)) t) in
    (success r = true <-> status r = 200%Z) /\
    (success r = true <-> resp_expires_at r <> None) /\
    (status r = 400%Z <-> strip (or_empty k) = []) /\
    (status r = 200 \/ status r = 400 \/ status r = 403)%Z.
Proof.
  intros now now_act k i t _ _.
  apply (serve_view (fun o =>
    let r := fst o in
    (success r = true <-> status r = 200%Z) /\
    (success r = true <-> resp_expires_at r <> None) /\
    (status r = 400%Z <-> strip (or_empty k) = []) /\
    (status r = 200 \/ status r = 400 \/ status r = 403)%Z));
    cbn [fst rejected accepted success status resp_expires_at license]; intros;
    repeat split; intros; auto; try discriminate; try congruence.
Qed.

Lemma answer_fields_agree_witness :
  let r := fst (serve 100 101 (Some (mkJson (Some (py "  ")) None)) sample_table) in
  (success r = true <-> status r = 200%Z) /\
  (success r = true <-> resp_expires_at r <> None) /\
  (status r = 400%Z <-> strip (or_empty (Some (py "  "))) = []) /\
  (status r = 200 \/ status r = 400 \/ status r = 403)%Z.
Proof.
  apply (answer_fields_agree 100 101 (Some (py "  ")) None sample_table); reflexivity.
Defined.

Lemma lstrip_split (s : str) :
  exists pre, s = pre ++ lstrip s /\ forallb isspace pre = true.
Proof.
  induction s as [|c s (pre & E & Hpre)]; [exists []; auto|].
  cbn [lstrip]. destruct (isspace c) eqn:C.
  - exists (c :: pre). cbn [forallb app]. rewrite C, Hpre, <- E. auto.
  - exists []. auto.
Qed.

(** What [strip] removes and what it leaves. *)
Lemma strip_split (s : str) :
  exists pre post,
    s = pre ++ strip s ++ post /\
    forallb isspace pre = true /\ forallb isspace post = true /\
    left_clean (strip s) /\ left_clean (rev (strip s)).
Proof.
  destruct (lstrip_split s) as (pre & E & Hpre).
  destruct (lstrip_split (rev (lstrip s))) as (tsop & E' & Hpost).
  exists pre, (rev tsop). unfold strip, rstrip.
  repeat split; auto.
  - rewrite <- rev_app_distr, <- E', rev_involutive. exact E.
  - rewrite forallb_rev. exact Hpost.
  - apply (rstrip_left_clean (lstrip s)), lstrip_left_clean.
  - rewrite rev_involutive. apply lstrip_left_clean.
Qed.

(** X7. The installation id a first activation stores is the submitted
    one without the white space around it: the submitted id is the stored
    one between two runs of white space, and the stored one neither starts
    nor ends with white space. *)
Theorem stored_installation_id_is_trimmed :
  forall (now now_act : Z) (k i : str) (t : table) (row : Row),
    strip k <> [] ->
    select_by_hash (hash_key (strip k)) t = Some row ->
    activation_id row = None ->
    truthy_opt (revoked row) = false ->
    (now <= expires_at row)%Z ->
    exists row' j pre post,
      select_by_hash (hash_key (strip k)) (snd (serve now now_act (request k i) t)) = Some row' /\
      activation_id row' = Some j /\ activated_at row' = Some now_act /\
      i = pre ++ j ++ post /\
      forallb isspace pre = true /\ forallb isspace post = true /\
      left_clean j /\ left_clean (rev j).
Proof.
  intros now now_act k i t row Hk Hsel Hact Hrev Hle.
  unfold request.
  rewrite (serve_first now now_act k (Some i) t row Hk Hsel Hact Hrev Hle).
  cbn [snd or_empty].
  destruct (strip_split i) as (pre & post & E & Hpre & Hpost & Hl & Hr).
  exists (set_activation now_act (strip i) row), (strip i), pre, post.
  rewrite select_update, Hsel, (select_key_hash _ _ _ Hsel), eqb_refl.
  repeat split; auto.
Qed.

Lemma stored_installation_id_is_trimmed_witness :
  exists row' j pre post,
    select_by_hash (hash_key (strip sample_key))
      (snd (serve 100 101 (request sample_key (py "  my laptop ")) sample_table)) = Some row' /\
    activation_id row' = Some j /\ activated_at row' = Some 101%Z /\
    py "  my laptop " = pre ++ j ++ post /\
    forallb isspace pre = true /\ forallb isspace post = true /\
    left_clean j /\ left_clean (rev j).
Proof.
  apply (stored_installation_id_is_trimmed 100 101 sample_key (py "  my laptop ") sample_table
           (issued (hash_key sample_key) 0 2592000 0)).
  - vm_compute. discriminate.
  - vm_compute. reflexivity.
  - reflexivity.
  - vm_compute. reflexivity.
  - vm_compute. discriminate.
Defined.

(** ** More about the generator *)

Lemma upper_hex_not_space (c : N) : is_upper_hex c = true -> isspace c = false.
Proof.
  unfold is_upper_hex, isspace. intros H.
  apply orb_true_iff in H as [H | H]; apply andb_true_iff in H as [H1 H2];
    apply N.leb_le in H1; apply N.leb_le in H2;
    repeat (apply orb_false_iff; split);
    try (apply andb_false_iff; (left; apply N.leb_gt; lia) || (right; apply N.leb_gt; lia));
    try (apply N.eqb_neq; lia).
Qed.

Lemma strip_fixed (s : str) : left_clean s -> left_clean (rev s) -> strip s = s.
Proof.
  intros Hl Hr. unfold strip, rstrip.
  rewrite (lstrip_fixed s Hl), (lstrip_fixed (rev s) Hr). apply rev_involutive.
Qed.

(** A generated key has no white space to strip. *)
Lemma key_of_uuid_strip (u : N) : strip (key_of_uuid u) = key_of_uuid u.
Proof.
  change (key_of_uuid u) with (key_of_raw (upper (uuid_hex u))).
  assert (Hlen : length (upper (uuid_hex u)) = 32%nat)
    by (unfold upper, uuid_hex; rewrite length_map; apply hex_fixed_length).
  assert (Hhex : forallb is_upper_hex (upper (uuid_hex u)) = true) by apply upper_hex_fixed.
  revert Hlen Hhex. generalize (upper (uuid_hex u)). intros raw Hlen Hhex.
  unfold key_of_raw. rewrite range_0_16_4.
  do 32 (destruct raw as [|? raw]; [discriminate Hlen|]).
  destruct raw; [|discriminate Hlen]. clear Hlen.
  cbn [forallb] in Hhex.
  repeat (apply andb_true_iff in Hhex as [? Hhex]).
  rewrite py_hyphen.
  cbn [map slice firstn skipn Nat.add Nat.sub join app].
  apply strip_fixed; cbn [left_clean rev app]; apply upper_hex_not_space; assumption.
Qed.

Lemma key_of_uuid_not_empty (u : N) : key_of_uuid u <> [].
Proof.
  intros E. pose proof (key_of_uuid_well_formed u) as W.
  rewrite E in W. discriminate W.
Qed.

(** What one call of [generate_license] does to the admin state. *)
Lemma generate_license_effect (utcoffset : Z) (time_at : nat -> Z) (urandom_at : nat -> N)
    (metadata : option str) (days_valid : Z) (w : Admin) :
  let key := key_of_uuid (uuid4 (urandom_at 0%nat)) in
  let row := mkRow (next_id (db w)) (hash_key key) (time_at 0%nat)
                   (time_at 0%nat + 86400 * days_valid)%Z None None (Some 0%Z) metadata in
  exists db',
    generate_license utcoffset time_at urandom_at metadata days_valid w
      = (Ok (Some key), mkAdmin db' (keys_file w ++ key ++ [10%N])) /\
    ((select_by_hash (hash_key key) (db w) <> None /\ db' = db w) \/
     (select_by_hash (hash_key key) (db w) = None /\ db' = db w ++ [row])).
Proof.
  intros key row.
  destruct (generate_license_first_attempt utcoffset time_at urandom_at metadata days_valid w)
    as (db' & Hs & E).
  exists db'. fold key in Hs, E. split.
  - rewrite E. unfold save_plain_key, key. rewrite key_of_uuid_strip. reflexivity.
  - rewrite store_hash_ignores in Hs.
    destruct (existsb _ (db w)) eqn:X; injection Hs as <-.
    + left. split; [apply select_exists; exact X | reflexivity].
    + right. split.
      * destruct (select_by_hash (hash_key key) (db w)) eqn:S; [|reflexivity].
        assert (existsb (fun r => eqb (key_hash r) (hash_key key)) (db w) = true)
          by (apply select_exists; congruence).
        congruence.
      * unfold row, timestamp, fromtimestamp, timedelta_days.
        replace (time_at 0%nat + utcoffset + 86400 * days_valid - utcoffset)%Z
          with (time_at 0%nat + 86400 * days_valid)%Z by lia.
        reflexivity.
Qed.



(** X10. Issue, then validate: when [generate_license] returns a key
    whose fingerprint was new to the table, the table it leaves holds a
    row for that key, and [validate_license] accepts the key on that
    table, for any installation id, at any clock reading up to the
    [expires_at] stored in that row; the answer carries that [expires_at]. *)
Theorem generated_key_validates :
  forall (utcoffset : Z) (time_at : nat -> Z) (urandom_at : nat -> N)
         (metadata : option str) (days_valid : Z) (w w' : Admin) (key : str),
    generate_license utcoffset time_at urandom_at metadata days_valid w = (Ok (Some key), w') ->
    select_by_hash (hash_key key) (db w) = None ->
    exists row,
      select_by_hash (hash_key key) (db w') = Some row /\
      created_at row = time_at 0%nat /\
      forall (now now_act : Z) (i : str),
        (now <= expires_at row)%Z ->
        serve now now_act (request key i) (db w')
          = (accepted "License activated." (expires_at row),
             update_activation now_act (strip i) (hash_key key) (db w')).
Proof.
  intros utcoffset time_at urandom_at metadata days_valid w w' key H Hnew.
  destruct (generate_license_effect utcoffset time_at urandom_at metadata days_valid w)
    as (db' & E & Hdb).
  rewrite E in H.
  pose proof (f_equal fst H) as Hk. pose proof (f_equal snd H) as Hw.
  cbn [fst snd] in Hk, Hw. injection Hk as <-. subst w'. clear H. cbn [db].
  destruct Hdb as [[Hin _] | [_ ->]]; [congruence|].
  pose proof (key_of_uuid_strip (uuid4 (urandom_at 0%nat))) as Hs.
  set (key := key_of_uuid (uuid4 (urandom_at 0%nat))) in *.
  set (row := mkRow (next_id (db w)) (hash_key key) (time_at 0%nat)
                    (time_at 0%nat + 86400 * days_valid)%Z None None (Some 0%Z) metadata).
  assert (Hsel : select_by_hash (hash_key key) (db w ++ [row]) = Some row)
    by (apply select_app_absent; [exact Hnew | reflexivity]).
  exists row. split; [exact Hsel|]. split; [reflexivity|].
  intros now now_act i Hle. unfold request.
  assert (Hk : strip key <> []) by (rewrite Hs; apply key_of_uuid_not_empty).
  assert (Hsel' : select_by_hash (hash_key (strip key)) (db w ++ [row]) = Some row)
    by (rewrite Hs; exact Hsel).
  rewrite (serve_first now now_act key (Some i) _ row Hk Hsel' eq_refl eq_refl Hle).
  rewrite Hs. reflexivity.
Qed.

Lemma generated_key_validates_witness :
  let w' := snd (generate_license 3600 (fun _ => 1000%Z) (fun _ => N.shiftl 77 64) None 30
                   issued_once) in
  let key := py "0000-0000-0000-404D" in
  exists row,
    select_by_hash (hash_key key) (db w') = Some row /\
    created_at row = 1000%Z /\
    forall (now now_act : Z) (i : str),
      (now <= expires_at row)%Z ->
      serve now now_act (request key i) (db w')
        = (accepted "License activated." (expires_at row),
           update_activation now_act (strip i) (hash_key key) (db w')).
Proof.
  apply (generated_key_validates 3600 (fun _ => 1000%Z) (fun _ => N.shiftl 77 64) None 30
           issued_once).
  - vm_compute. reflexivity.
  - vm_compute. reflexivity.
Defined.






(** ** The report of read_licenses.py *)

Lemma insert_desc_perm (r : Row) (l : list Row) : Permutation (insert_desc r l) (r :: l).
Proof.
  induction l as [|x l IH]; cbn [insert_desc]; [reflexivity|].
  destruct (created_at x <=? created_at r)%Z; [reflexivity|].
  rewrite IH. apply perm_swap.
Qed.

Lemma insert_desc_sorted (r : Row) (l : list Row) :
  sorted_desc l -> sorted_desc (insert_desc r l).
Proof.
  induction l as [|x l IH]; cbn [insert_desc sorted_desc]; [intros _; split; [intros ? []|exact I]|].
  intros [Hx Hl].
  destruct (created_at x <=? created_at r)%Z eqn:C; cbn [sorted_desc].
  - apply Z.leb_le in C. split; [|split; assumption].
    intros y [<- | Hy]; [exact C|]. specialize (Hx y Hy). lia.
  - apply Z.leb_gt in C. split; [|apply IH, Hl].
    intros y Hy. apply (Permutation_in _ (insert_desc_perm r l)) in Hy.
    destruct Hy as [<- | Hy]; [lia | apply Hx, Hy].
Qed.

Lemma order_by_perm (l : list Row) : Permutation (order_by_created_desc l) l.
Proof.
  induction l as [|r l IH]; [reflexivity|].
  cbn [order_by_created_desc fold_right]. rewrite insert_desc_perm.
  apply perm_skip, IH.
Qed.

Lemma order_by_sorted (l : list Row) : sorted_desc (order_by_created_desc l).
Proof.
  induction l as [|r l IH]; [exact I|].
  cbn [order_by_created_desc fold_right]. apply insert_desc_sorted, IH.
Qed.

Lemma fetch_rows_In (choice now_ts : Z) (t : table) (r : Row) :
  In r (fetch_rows choice now_ts t) <-> In r t /\ where_clause choice now_ts r = true.
Proof.
  unfold fetch_rows. rewrite <- filter_In. split; apply Permutation_in.
  - apply order_by_perm.
  - symmetry. apply order_by_perm.
Qed.

(** X12. The report lists exactly the rows of the table that pass the
    chosen filter, each as often as the table holds it, the latest
    created first. *)
Theorem report_is_sorted_selection :
  forall (choice now_ts : Z) (t : table),
    sorted_desc (fetch_rows choice now_ts t) /\
    Permutation (fetch_rows choice now_ts t) (filter (where_clause choice now_ts) t) /\
    forall r, In r (fetch_rows choice now_ts t) <-> In r t /\ where_clause choice now_ts r = true.
Proof.
  intros choice now_ts t. split; [apply order_by_sorted|].
  split; [apply order_by_perm | apply fetch_rows_In].
Qed.

Lemma filter_none {A : Type} (f : A -> bool) (l : list A) :
  (forall x, In x l -> f x = false) -> filter f l = [].
Proof.
  induction l as [|x l IH]; intros H; [reflexivity|].
  cbn [filter]. rewrite (H x (or_introl eq_refl)). apply IH.
  intros y Hy. apply H. right. exact Hy.
Qed.

Lemma sql_eq_true (c : option Z) (v : Z) : sql_eq c v = true <-> c = Some v.
Proof.
  destruct c as [x|]; cbn [sql_eq]; [|split; discriminate].
  rewrite Z.eqb_eq. split; congruence.
Qed.

(** X13. The three filters of the menu ("activated", "expired",
    "revoked") never list the same license: at one clock reading, no row
    listed by one of them passes another.  Any other choice lists the
    whole table. *)
Theorem report_filters_are_exclusive :
  forall (choice now_ts : Z) (t : table),
    filter (where_clause 3 now_ts) (fetch_rows 2 now_ts t) = [] /\
    filter (where_clause 4 now_ts) (fetch_rows 2 now_ts t) = [] /\
    filter (where_clause 2 now_ts) (fetch_rows 3 now_ts t) = [] /\
    filter (where_clause 4 now_ts) (fetch_rows 3 now_ts t) = [] /\
    filter (where_clause 2 now_ts) (fetch_rows 4 now_ts t) = [] /\
    filter (where_clause 3 now_ts) (fetch_rows 4 now_ts t) = [] /\
    ((choice =? 2) || (choice =? 3) || (choice =? 4) = false ->
     Permutation (fetch_rows choice now_ts t) t)%Z.
Proof.
  intros choice now_ts t.
  assert (E23 : forall r, where_clause 2 now_ts r && where_clause 3 now_ts r = false).
  { intros r. unfold where_clause. cbn [Z.eqb Pos.eqb].
    destruct (expires_at r >? now_ts)%Z eqn:G; [|rewrite andb_false_r; reflexivity].
    replace (expires_at r <=? now_ts)%Z with false; [apply andb_false_r|].
    symmetry. apply Z.leb_gt. apply Z.gtb_lt in G. lia. }
  assert (E4 : forall r, sql_eq (revoked r) 0 && where_clause 4 now_ts r = false).
  { intros r. unfold where_clause. cbn [Z.eqb Pos.eqb].
    destruct (revoked r) as [v|]; [|reflexivity]. cbn [sql_eq].
    destruct (v =? 0)%Z eqn:V; [|reflexivity]. apply Z.eqb_eq in V. subst v. reflexivity. }
  assert (E24 : forall r, where_clause 2 now_ts r && where_clause 4 now_ts r = false).
  { intros r. specialize (E4 r). unfold where_clause in *. cbn [Z.eqb Pos.eqb] in *.
    destruct (sql_eq (revoked r) 0); [|rewrite andb_false_r; reflexivity].
    cbn [andb] in E4. rewrite E4. apply andb_false_r. }
  assert (E34 : forall r, where_clause 3 now_ts r && where_clause 4 now_ts r = false).
  { intros r. specialize (E4 r). unfold where_clause in *. cbn [Z.eqb Pos.eqb] in *.
    destruct (sql_eq (revoked r) 0); [|rewrite andb_false_r; reflexivity].
    cbn [andb] in E4. rewrite E4. apply andb_false_r. }
  assert (X : forall a b, (forall r, where_clause a now_ts r && where_clause b now_ts r = false) ->
              filter (where_clause b now_ts) (fetch_rows a now_ts t) = []).
  { intros a b H. apply filter_none. intros r Hr.
    apply fetch_rows_In in Hr as [_ Hr]. specialize (H r). rewrite Hr in H. exact H. }
  repeat split; try (apply X; intros r; auto; rewrite andb_comm; auto).
  intros Hc. apply orb_false_iff in Hc as [Hc H4]. apply orb_false_iff in Hc as [H2 H3].
  unfold fetch_rows. rewrite order_by_perm.
  replace (filter (where_clause choice now_ts) t) with t; [reflexivity|].
  symmetry. apply forallb_filter_id. apply forallb_forall. intros r _.
  unfold where_clause. rewrite H2, H3, H4. reflexivity.
Qed.

Lemma report_filters_are_exclusive_witness :
  Permutation (fetch_rows 7 100 (sample_table ++ revoked_table)) (sample_table ++ revoked_table).
Proof.
  apply (report_filters_are_exclusive 7 100 (sample_table ++ revoked_table)).
  reflexivity.
Defined.

Lemma select_In (h : str) (t : table) (r : Row) :
  select_by_hash h t = Some r -> In r t.
Proof. unfold select_by_hash. intros H. apply find_some in H. apply H. Qed.

(** X14. The "expired" list of the report against the server, for a stored
    license whose [revoked] is 0: every license the server refuses as
    expired is in the list; a license in the list is refused as expired,
    except at the very second of its expiry ([expires_at] equal to the
    clock) and when [expires_at] is 0, where the server still lets it
    through. *)
Theorem expired_list_and_server :
  forall (now now_act : Z) (k : str) (i : option str) (t : table) (row : Row),
    strip k <> [] ->
    select_by_hash (hash_key (strip k)) t = Some row ->
    revoked row = Some 0%Z ->
    (fst (serve now now_act (Some (mkJson (Some k) i)) t) = rejected 403 "License expired."
     -> In row (fetch_rows 3 now t)) /\
    (In row (fetch_rows 3 now t) ->
     fst (serve now now_act (Some (mkJson (Some k) i)) t) = rejected 403 "License expired."
     \/ expires_at row = now \/ expires_at row = 0%Z) /\
    (expires_at row = now \/ (expires_at row = 0 /\ 0 <= now)%Z ->
     In row (fetch_rows 3 now t) /\
     fst (serve now now_act (Some (mkJson (Some k) i)) t) <> rejected 403 "License expired.").
Proof.
  intros now now_act k i t row Hk Hsel Hrev.
  assert (Hin : In row t) by (apply (select_In _ _ _ Hsel)).
  assert (Hlist : In row (fetch_rows 3 now t) <-> (expires_at row <= now)%Z).
  { rewrite fetch_rows_In. unfold where_clause. cbn [Z.eqb Pos.eqb].
    rewrite Hrev. cbn [sql_eq Z.eqb]. rewrite andb_true_r, Z.leb_le. tauto. }
  rewrite (serve_stored now now_act (Some (mkJson (Some k) i)) _ _ t row eq_refl eq_refl Hk Hsel).
  rewrite Hrev. cbn [truthy_opt truthy Z.eqb negb].
  destruct (Z.eq_dec (expires_at row) 0) as [Z0 | Z0];
    [|destruct (Z_gt_le_dec now (expires_at row)) as [G | G]].
  - rewrite (expiry_test_false now _ (or_introl Z0)).
    repeat split.
    + destruct (activation_id row) as [b|]; [destruct (eqb b _)|]; discriminate.
    + intros _. auto.
    + apply Hlist. lia.
    + destruct (activation_id row) as [b|]; [destruct (eqb b _)|]; discriminate.
  - rewrite (expiry_test_true now _ Z0 G). cbn [fst].
    repeat split.
    + intros _. apply Hlist. lia.
    + intros _. auto.
    + apply Hlist. lia.
    + lia.
  - rewrite (expiry_test_false now _ (or_intror G)).
    repeat split.
    + destruct (activation_id row) as [b|]; [destruct (eqb b _)|]; discriminate.
    + intros L. apply Hlist in L. right. left. lia.
    + apply Hlist. lia.
    + destruct (activation_id row) as [b|]; [destruct (eqb b _)|]; discriminate.
Qed.

Lemma expired_list_and_server_witness :
  In (issued (hash_key sample_key) 0 2592000 0) (fetch_rows 3 2592000 sample_table) /\
  fst (serve 2592000 2592001 (Some (mkJson (Some sample_key) (Some (py "A")))) sample_table)
    <> rejected 403 "License expired.".
Proof.
  apply (expired_list_and_server 2592000 2592001 sample_key (Some (py "A")) sample_table
           (issued (hash_key sample_key) 0 2592000 0)).
  - vm_compute. discriminate.
  - vm_compute. reflexivity.
  - reflexivity.
  - left. reflexivity.
Defined.

(** X15. A license the report lists as "activated" is, at the same clock
    reading, never refused by the server as revoked or expired: a request
    for it is answered "License activated.", "Welcome back!" or "License
    already used on another device.". *)
Theorem activated_list_passes_gates :
  forall (now now_act : Z) (k : str) (i : option str) (t : table) (row : Row),
    strip k <> [] ->
    select_by_hash (hash_key (strip k)) t = Some row ->
    In row (fetch_rows 2 now t) ->
    In (fst (serve now now_act (Some (mkJson (Some k) i)) t))
       [accepted "License activated." (expires_at row);
        accepted "Welcome back!" (expires_at row);
        rejected 403 "License already used on another device."].
Proof.
  intros now now_act k i t row Hk Hsel Hin.
  apply fetch_rows_In in Hin as [_ Hw]. unfold where_clause in Hw. cbn [Z.eqb Pos.eqb] in Hw.
  apply andb_true_iff in Hw as [Hw Hexp]. apply andb_true_iff in Hw as [_ Hrev].
  apply sql_eq_true in Hrev. apply Z.gtb_lt in Hexp.
  rewrite (serve_stored now now_act (Some (mkJson (Some k) i)) _ _ t row eq_refl eq_refl Hk Hsel).
  rewrite Hrev. cbn [truthy_opt truthy Z.eqb negb].
  rewrite (expiry_test_false now (expires_at row)) by (right; lia).
  destruct (activation_id row) as [b|]; [destruct (eqb b _)|]; cbn [fst In]; auto.
Qed.

Lemma activated_list_passes_gates_witness :
  let t := snd (serve 100 101 (request sample_key (py "A")) sample_table) in
  In (fst (serve 200 201 (Some (mkJson (Some sample_key) (Some (py "B")))) t))
     [accepted "License activated." 2592000;
      accepted "Welcome back!" 2592000;
      rejected 403 "License already used on another device."].
Proof.
  apply (activated_list_passes_gates 200 201 sample_key (Some (py "B"))
           (snd (serve 100 101 (request sample_key (py "A")) sample_table))
           (set_activation 101 (py "A") (issued (hash_key sample_key) 0 2592000 0))).
  - vm_compute. discriminate.
  - vm_compute. reflexivity.
  - vm_compute. left. reflexivity.
Defined.

(** X16. [/list_licenses] answers 200 exactly when the [X-ADMIN-SECRET]
    header is sent and equals [ADMIN_SECRET], or "change-me" when the
    variable is not set; it then returns every row of the table as it is,
    whatever its state.  Otherwise it answers 401 "Unauthorized" and
    returns no row; a request without the header is always refused. *)
Theorem listing_needs_the_secret :
  forall (env_secret header : option str) (t : table),
    let secret := match env_secret with Some s => s | None => py "change-me" end in
    let r := list_licenses env_secret header t in
    (list_success r = true <-> header = Some secret) /\
    (list_success r = true <-> licenses r = Some t) /\
    (list_success r = true <-> list_status r = 200%Z) /\
    (list_success r = false <->
     list_status r = 401%Z /\ licenses r = None /\ list_message r = Some "Unauthorized"%string) /\
    list_success (list_licenses env_secret None t) = false.
Proof.
  intros env_secret header t. cbn zeta. unfold list_licenses.
  destruct header as [h|].
  - destruct (eqb h _) eqn:E; cbn [negb list_success licenses list_status list_message].
    + apply eqb_eq in E. subst h.
      repeat split; intros; auto; try discriminate; try congruence.
      destruct H as [H _]. discriminate H.
    + apply eqb_neq in E.
      repeat split; intros; auto; try discriminate; try congruence.
  - cbn [list_success licenses list_status list_message].
    repeat split; intros; auto; try discriminate; try congruence.
Qed.

Lemma generate_keeps_unique (utcoffset : Z) (time_at : nat -> Z) (urandom_at : nat -> N)
    (metadata : option str) (days_valid : Z) (w : Admin) :
  unique_hashes (db w) ->
  unique_hashes (db (snd (generate_license utcoffset time_at urandom_at metadata days_valid w))).
Proof.
  intros Hu.
  destruct (generate_license_first_attempt utcoffset time_at urandom_at metadata days_valid w)
    as (db' & Hs & E).
  rewrite E. cbn [snd db]. unfold store_hash in Hs.
  exact (insert_keeps_unique _ _ _ _ _ _ _ Hs Hu).
Qed.

Lemma bulk_loop_keeps_unique (utcoffset : Z) (time_at : nat -> nat -> Z)
    (urandom_at : nat -> nat -> N) (days_valid : Z) (metadata : option str)
    (calls : list nat) :
  forall (acc : list (option str)) (w : Admin),
    unique_hashes (db w) ->
    unique_hashes (db (snd (bulk_loop utcoffset time_at urandom_at calls days_valid
                              metadata acc w))).
Proof.
  induction calls as [|c calls IH]; intros acc w Hu; [exact Hu|].
  cbn [bulk_loop].
  pose proof (generate_keeps_unique utcoffset (time_at c) (urandom_at c) metadata
                days_valid w Hu) as H1.
  destruct (generate_license utcoffset (time_at c) (urandom_at c) metadata days_valid w)
    as [[key | e] w1]; cbn [snd] in H1 |- *; [apply IH|]; exact H1.
Qed.

Lemma serve_all_keeps_unique (reqs : list (Z * Z * option Json)) (t : table) :
  unique_hashes t -> unique_hashes (serve_all reqs t).
Proof.
  revert t. induction reqs as [|[[n na] b] reqs IH]; intros t Hu; [exact Hu|].
  cbn [serve_all]. apply IH. unfold unique_hashes in *.
  replace (map key_hash (snd (serve n na b t)))
    with (map (fun c => snd (fst (fst (fst (fst c)))))
              (map issued_columns (snd (serve n na b t))))
    by (rewrite map_map; reflexivity).
  unfold serve. rewrite run_keeps_issued, map_map. exact Hu.
Qed.

(** X17. The table keeps the [UNIQUE] constraint on fingerprints through
    everything that writes it: one call of [generate_license], a whole
    [bulk_generate], and any requests served afterwards leave a table
    with distinct fingerprints if it had distinct fingerprints, so that
    each stored row is the one its own fingerprint looks up. *)
Theorem fingerprints_stay_distinct :
  forall (utcoffset : Z) (time_at : nat -> nat -> Z) (urandom_at : nat -> nat -> N)
         (total days_valid : Z) (metadata : option str) (w : Admin)
         (reqs : list (Z * Z * option Json)),
    unique_hashes (db w) ->
    let w1 := snd (generate_license utcoffset (time_at 0%nat) (urandom_at 0%nat)
                     metadata days_valid w) in
    let w2 := snd (bulk_generate utcoffset time_at urandom_at total days_valid metadata w) in
    unique_hashes (db w1) /\ unique_hashes (db w2) /\
    unique_hashes (serve_all reqs (db w2)) /\
    forall r, In r (serve_all reqs (db w2)) ->
              select_by_hash (key_hash r) (serve_all reqs (db w2)) = Some r.
Proof.
  intros utcoffset time_at urandom_at total days_valid metadata w reqs Hu. cbn zeta.
  assert (H2 : unique_hashes
                 (db (snd (bulk_generate utcoffset time_at urandom_at total days_valid
                             metadata w))))
    by (apply bulk_loop_keeps_unique, Hu).
  assert (H3 : unique_hashes
                 (serve_all reqs (db (snd (bulk_generate utcoffset time_at urandom_at total
                                             days_valid metadata w)))))
    by (apply serve_all_keeps_unique, H2).
  split; [apply generate_keeps_unique, Hu|]. split; [exact H2|]. split; [exact H3|].
  intros r Hr. apply select_member; assumption.
Qed.

Lemma fingerprints_stay_distinct_witness :
  let w1 := snd (generate_license 0 (fun _ => 0%Z) (fun _ => N.shiftl (N.of_nat 0) 64)
                   None 30 issued_once) in
  let w2 := snd (bulk_generate 0 (fun _ _ => 0%Z) (fun c _ => N.shiftl (N.of_nat c) 64)
                   3 30 None issued_once) in
  unique_hashes (db w1) /\ unique_hashes (db w2) /\
  unique_hashes (serve_all [(100, 101, request sample_key (py "A"))]%Z (db w2)) /\
  forall r, In r (serve_all [(100, 101, request sample_key (py "A"))]%Z (db w2)) ->
            select_by_hash (key_hash r)
              (serve_all [(100, 101, request sample_key (py "A"))]%Z (db w2)) = Some r.
Proof.
  apply (fingerprints_stay_distinct 0 (fun _ _ => 0%Z) (fun c _ => N.shiftl (N.of_nat c) 64)
           3 30 None issued_once [(100, 101, request sample_key (py "A"))]%Z).
  vm_compute. repeat constructor. intros [].
Defined.

Lemma serve_all_keeps_unknown (reqs : list (Z * Z * option Json)) (h : str) (t : table) :
  select_by_hash h t = None -> select_by_hash h (serve_all reqs t) = None.
Proof.
  revert t. induction reqs as [|[[n na] b] reqs IH]; intros t Hn; [exact Hn|].
  cbn [serve_all]. apply IH.
  destruct (serve_table n na b t) as [-> | (h' & i' & row & _ & _ & _ & ->)]; [exact Hn|].
  rewrite select_update, Hn. reflexivity.
Qed.

(** X18. Requests never create a license: a key whose fingerprint is not
    in the table is answered 403 "Invalid license.", whatever the
    installation id and the clock, and it is still answered so after any
    other requests have been served. *)
Theorem unknown_key_stays_invalid :
  forall (reqs : list (Z * Z * option Json)) (now now_act : Z) (k : str) (i : option str)
         (t : table),
    strip k <> [] ->
    select_by_hash (hash_key (strip k)) t = None ->
    serve now now_act (Some (mkJson (Some k) i)) (serve_all reqs t)
      = (rejected 403 "Invalid license.", serve_all reqs t).
Proof.
  intros reqs now now_act k i t Hk Hn.
  apply (serve_unknown now now_act (Some (mkJson (Some k) i)) (strip k)); auto.
  apply serve_all_keeps_unknown, Hn.
Qed.

Lemma unknown_key_stays_invalid_witness :
  serve 300 301 (Some (mkJson (Some (py "FFFF-0000-FFFF-0000")) (Some (py "A"))))
        (serve_all [(100, 101, request sample_key (py "A"));
                    (200, 201, request (py "FFFF-0000-FFFF-0000") (py "B"))]%Z sample_table)
  = (rejected 403 "Invalid license.",
     serve_all [(100, 101, request sample_key (py "A"));
                (200, 201, request (py "FFFF-0000-FFFF-0000") (py "B"))]%Z sample_table).
Proof.
  apply (unknown_key_stays_invalid
           [(100, 101, request sample_key (py "A"));
            (200, 201, request (py "FFFF-0000-FFFF-0000") (py "B"))]%Z
           300 301 (py "FFFF-0000-FFFF-0000") (Some (py "A")) sample_table).
  - vm_compute. discriminate.
  - vm_compute. reflexivity.
Defined.

(** ** The expiry date across a change of offset *)

Section LocalTimeFacts.

Variable zone : Z -> Z.
Hypothesis Hz : forall u, (-86400 <= zone u <= 86400)%Z.

Lemma local_in (u : Z) :
  (LocalTime.wall_min <= u + zone u <= LocalTime.wall_max)%Z ->
  LocalTime.local zone u = LocalTime.Got (u + zone u).
Proof.
  intros [H1 H2]. unfold LocalTime.local.
  apply Z.leb_le in H1. apply Z.leb_le in H2. rewrite H1, H2. reflexivity.
Qed.

(** [naive.timestamp()] raises no [OverflowError]. *)
Lemma mktime_no_overflow (t : Z) :
  LocalTime.mktime zone t <> LocalTime.Err LocalTime.OverflowError.
Proof.
  unfold LocalTime.mktime, LocalTime.local.
  repeat match goal with
         | |- context [if ?c then _ else _] => destruct c
         end; discriminate.
Qed.

Ltac local_step :=
  match goal with
  | |- context [LocalTime.local zone ?u] =>
      let B := fresh "B" in
      pose proof (Hz u) as B;
      rewrite (local_in u)
        by (unfold LocalTime.wall_min, LocalTime.wall_max, LocalTime.max_fold_seconds in *; lia)
  end.

(** Away from the ends of [datetime]'s range, [fromtimestamp] is the wall
    clock at the instant. *)
Lemma fromtimestamp_inside (now : Z) :
  (LocalTime.wall_min + 259200 <= now <= LocalTime.wall_max - 259200)%Z ->
  LocalTime.fromtimestamp zone now = LocalTime.Got (now + zone now)%Z.
Proof.
  intros Hnow. unfold LocalTime.fromtimestamp.
  local_step. local_step. cbn zeta.
  destruct (_ <? 0)%Z eqn:T; [|reflexivity].
  local_step. reflexivity.
Qed.

End LocalTimeFacts.

Lemma Got_inj (x y : Z) : LocalTime.Got x = LocalTime.Got y -> x = y.
Proof. intros H. injection H. auto. Qed.

(** X19. Line 51 of [store_hash] across a change of the zone's offset: for
    a clock and an expiry date at least three days inside the range of
    [datetime], in a zone whose offsets stay within a day, if the offset
    is [a] at the issue and [b] around the expiry (at the expiry and one
    day before), the expiry stored is [now + 86400 * days_valid + (a - b)]:
    the days are counted on the wall clock, so that a daylight-saving
    change in between shifts the expiry by the change of offset. *)
Theorem expiry_follows_offset_change :
  forall (zone : Z -> Z) (now days a b : Z),
    (forall u, -86400 <= zone u <= 86400)%Z ->
    (LocalTime.wall_min + 259200 <= now <= LocalTime.wall_max - 259200)%Z ->
    (LocalTime.wall_min + 259200 <= now + 86400 * days <= LocalTime.wall_max - 259200)%Z ->
    zone now = a ->
    zone (now + a + 86400 * days)%Z = b ->
    zone (now + a + 86400 * days - b)%Z = b ->
    zone (now + a + 86400 * days - b - 86400)%Z = b ->
    LocalTime.expiry_timestamp zone now days
      = LocalTime.Got (now + 86400 * days + (a - b))%Z.
Proof.
  intros zone now days a b Hz Hnow Hexp Ha Hb1 Hb2 Hb3.
  unfold LocalTime.expiry_timestamp.
  rewrite (fromtimestamp_inside zone Hz now Hnow), Ha.
  unfold LocalTime.wall_min, LocalTime.wall_max in Hnow, Hexp.
  pose proof (Hz now) as Z0. rewrite Ha in Z0.
  unfold LocalTime.timedelta.
  replace (Z.abs days <=? 999999999)%Z with true by (symmetry; apply Z.leb_le; lia).
  unfold LocalTime.add, LocalTime.wall_min, LocalTime.wall_max.
  replace ((-62135596800 <=? now + a + 86400 * days)
           && (now + a + 86400 * days <=? 253402300799))%Z with true
    by (symmetry; apply andb_true_iff; split; apply Z.leb_le; lia).
  unfold LocalTime.mktime, LocalTime.max_fold_seconds. change (24 * 3600)%Z with 86400%Z.
  set (t := (now + a + 86400 * days)%Z) in *.
  assert (Ht : (-62135596800 + 172800 <= t <= 253402300799 - 172800)%Z) by (unfold t; lia).
  assert (Zb : (-86400 <= b <= 86400)%Z) by (rewrite <- Hb1; apply Hz).
  assert (L : forall u, zone u = b -> (-62135596800 <= u + b <= 253402300799)%Z ->
                        LocalTime.local zone u = LocalTime.Got (u + b)%Z).
  { intros u Hu Hr. rewrite <- Hu. apply local_in. rewrite Hu.
    unfold LocalTime.wall_min, LocalTime.wall_max. exact Hr. }
  rewrite (L t Hb1) by lia. cbn zeta.
  replace (t - (t + b - t))%Z with (t - b)%Z by lia.
  rewrite (L (t - b)%Z Hb2) by lia.
  replace (t - b + b =? t)%Z with true by (symmetry; apply Z.eqb_eq; lia).
  rewrite (L (t - b - 86400)%Z Hb3) by lia.
  replace (t + b - t =? t - b - 86400 + b - (t - b - 86400))%Z with true
    by (symmetry; apply Z.eqb_eq; lia).
  f_equal. unfold t. lia.
Qed.

Lemma expiry_follows_offset_change_witness :
  LocalTime.expiry_timestamp
    (fun u => if (u <? 1710054000)%Z then (-18000)%Z else (-14400)%Z) 1709000000 30
  = LocalTime.Got (1709000000 + 86400 * 30 + (-18000 - -14400))%Z.
Proof.
  apply (expiry_follows_offset_change
           (fun u => if (u <? 1710054000)%Z then (-18000)%Z else (-14400)%Z)
           1709000000 30 (-18000) (-14400)).
  - intros u. destruct (u <? 1710054000)%Z; lia.
  - vm_compute. split; discriminate.
  - vm_compute. split; discriminate.
  - reflexivity.
  - reflexivity.
  - reflexivity.
  - reflexivity.
Defined.

(** X20. Line 51 of [store_hash] outside the range of [datetime]: for a
    clock that [fromtimestamp] converts, the expression raises
    [OverflowError] exactly when [days_valid] is beyond 999999999 in
    magnitude or the wall clock of the issue plus [days_valid] days leaves
    the years 1 to 9999. *)
Theorem expiry_overflows_outside_datetime :
  forall (zone : Z -> Z) (now days w0 : Z),
    LocalTime.fromtimestamp zone now = LocalTime.Got w0 ->
    (LocalTime.expiry_timestamp zone now days = LocalTime.Err LocalTime.OverflowError
     <-> (999999999 < Z.abs days \/ w0 + 86400 * days < LocalTime.wall_min
          \/ LocalTime.wall_max < w0 + 86400 * days)%Z).
Proof.
  intros zone now days w0 H.
  unfold LocalTime.expiry_timestamp. rewrite H.
  unfold LocalTime.timedelta, LocalTime.add.
  destruct (Z.abs days <=? 999999999)%Z eqn:D.
  - apply Z.leb_le in D.
    destruct (LocalTime.wall_min <=? w0 + 86400 * days)%Z eqn:A1;
      [destruct (w0 + 86400 * days <=? LocalTime.wall_max)%Z eqn:A2|]; cbn [andb].
    + apply Z.leb_le in A1. apply Z.leb_le in A2. split.
      * intros E. exfalso. exact (mktime_no_overflow zone _ E).
      * intros [C | [C | C]]; lia.
    + apply Z.leb_gt in A2. split; [intros _; right; right; exact A2 | reflexivity].
    + apply Z.leb_gt in A1. split; [intros _; right; left; exact A1 | reflexivity].
  - apply Z.leb_gt in D. split; [intros _; left; exact D | reflexivity].
Qed.

Lemma expiry_overflows_outside_datetime_witness :
  LocalTime.expiry_timestamp (fun _ => 3600%Z) 1709000000 10000000
    = LocalTime.Err LocalTime.OverflowError
  <-> (999999999 < Z.abs 10000000 \/ 1709003600 + 86400 * 10000000 < LocalTime.wall_min
       \/ LocalTime.wall_max < 1709003600 + 86400 * 10000000)%Z.
Proof.
  apply (expiry_overflows_outside_datetime (fun _ => 3600%Z) 1709000000 10000000 1709003600).
  vm_compute. reflexivity.
Defined.

(** X21. In a zone whose offset never changes, whenever line 51 of
    [store_hash] returns, it returns [now + 86400 * days_valid], whatever
    the offset; [store_hash] as modelled above then inserts exactly the
    row of the code. *)
Theorem expiry_in_fixed_zone :
  forall (utcoffset now days e : Z) (h : str) (meta : option str) (db : table),
    LocalTime.expiry_timestamp (fun _ => utcoffset) now days = LocalTime.Got e ->
    e = (now + 86400 * days)%Z /\
    store_hash utcoffset now h days meta db = insert_license OrIgnore h now e meta db.
Proof.
  intros utcoffset now days e h meta db H.
  assert (E : e = (now + 86400 * days)%Z).
  { revert H.
    unfold LocalTime.expiry_timestamp, LocalTime.fromtimestamp, LocalTime.timedelta,
      LocalTime.add, LocalTime.mktime, LocalTime.local.
    repeat match goal with
           | |- context [if ?c then _ else _] => destruct c eqn:?
           end; try discriminate; intros Hg; apply Got_inj in Hg; subst e;
      unfold LocalTime.max_fold_seconds in *;
      repeat match goal with
             | H : (_ =? _)%Z = true |- _ => apply Z.eqb_eq in H
             | H : (_ =? _)%Z = false |- _ => apply Z.eqb_neq in H
             end; lia. }
  split; [exact E|]. subst e.
  unfold store_hash, timestamp, fromtimestamp, timedelta_days.
  replace (now + utcoffset + 86400 * days - utcoffset)%Z with (now + 86400 * days)%Z by lia.
  reflexivity.
Qed.

Lemma expiry_in_fixed_zone_witness :
  2592000%Z = (0 + 86400 * 30)%Z /\
  store_hash 19800 0 (hash_key sample_key) 30 None []
    = insert_license OrIgnore (hash_key sample_key) 0 2592000 None [].
Proof.
  apply (expiry_in_fixed_zone 19800 0 30 2592000 (hash_key sample_key) None []).
  vm_compute. reflexivity.
Defined.
